(** * London Open Imbalance backtester: a shallow embedding

    The development follows the two core modules of the repository:

    - [src/london_imbalance.py]  class [LondonImbalanceStrategy]
      (configuration, indicators, five-condition signal detection);
    - [src/engine.py]            class [BacktestEngine]
      (forward trade simulation and metric aggregation).

    Numbers.  The Python code computes on IEEE doubles held in pandas
    columns.  Here prices, volumes and pip amounts are exact rationals
    ([Q]); a column that pandas fills with NaN during warm-up is a column of
    [option Q], and every comparison against a missing value is [false], as
    it is for NaN.  Python integers used as positions are [Z], with the
    negative-position rule of [DataFrame.iloc] written out.

    Exceptions.  Code that can raise returns [result A]: [inl e] is the
    exception [e], [inr a] the returned value. *)

From Stdlib Require Import ZArith QArith Qabs Qround List Bool Lia Lqa Sorted.
Import ListNotations.

Open Scope Q_scope.

(** ** Comparisons on rationals, as booleans *)

Definition Qltb (x y : Q) : bool := negb (Qle_bool y x).

Notation "x <=? y" := (Qle_bool x y) (at level 70, no associativity) : Q_scope.
Notation "x <? y" := (Qltb x y) (at level 70, no associativity) : Q_scope.
Notation "x >=? y" := (Qle_bool y x) (at level 70, no associativity) : Q_scope.
Notation "x >? y" := (Qltb y x) (at level 70, no associativity) : Q_scope.

(** ** Exceptions *)

Inductive exn : Type :=
| IndexError   (* "single positional indexer is out-of-bounds" *)
| ValueError.  (* "span must satisfy: span >= 1" *)

Definition result (A : Type) : Type := (exn + A)%type.

Definition ret {A : Type} (a : A) : result A := inr a.
Definition raise {A : Type} (e : exn) : result A := inl e.
Definition bind {A B : Type} (m : result A) (k : A -> result B) : result B :=
  match m with
  | inl e => inl e
  | inr a => k a
  end.

Notation "x <- m ;; k" := (bind m (fun x => k))
  (at level 61, m at next level, right associativity).
Notation "' pat <- m ;; k" := (bind m (fun x => match x with pat => k end))
  (at level 61, pat pattern, m at next level, right associativity).

(** ** Python built-ins used by the code *)

(** [range(a, b)]: the [b - a] integers from [a] on, none when [b <= a]. *)
Fixpoint range_from (a : Z) (n : nat) : list Z :=
  match n with
  | O => []
  | S m => a :: range_from (a + 1) m
  end.

Definition py_range (a b : Z) : list Z := range_from a (Z.to_nat (b - a)).

(** [len(df)] *)
Definition len {A : Type} (df : list A) : Z := Z.of_nat (length df).

(** [df.iloc[k]]: a negative position counts from the end; a position
    outside [-len, len) raises [IndexError]. *)
Definition iloc {A : Type} (df : list A) (k : Z) : result A :=
  let pos := (if k <? 0 then len df + k else k)%Z in
  if (pos <? 0)%Z then raise IndexError
  else match nth_error df (Z.to_nat pos) with
       | Some row => ret row
       | None => raise IndexError
       end.

(** [int(x)]: truncation towards zero. *)
Definition py_int (x : Q) : Z := Z.quot (Qnum x) (Zpos (Qden x)).

(** Rounding to the nearest integer, ties to the even one. *)
Definition round_half_even (x : Q) : Z :=
  let f := Qfloor x in
  let r := x - inject_Z f in
  if r <? (1 # 2) then f
  else if (1 # 2) <? r then (f + 1)%Z
  else if Z.even f then f else (f + 1)%Z.

(** [round(x, ndigits)], for Python floats and numpy scalars alike: the
    nearest multiple of [10^-ndigits], ties to even. *)
Definition py_round (x : Q) (ndigits : nat) : Q :=
  let scale := inject_Z (10 ^ Z.of_nat ndigits) in
  inject_Z (round_half_even (x * scale)) / scale.

(** [Series.sum()] and [Series.mean()] *)
Definition Qsum (xs : list Q) : Q := fold_left Qplus xs 0.
Definition Qmean (xs : list Q) : Q := Qsum xs / inject_Z (len xs).

(** ** Data model *)

(** The index of the price frame: a UTC instant, in seconds. *)
Record Timestamp : Type := mkTimestamp { epoch_seconds : Z }.

(** [timestamp.hour] *)
Definition hour (t : Timestamp) : Z := ((epoch_seconds t / 3600) mod 24)%Z.

(** One row of the price frame; [name] is the row label ([row.name]). *)
Record Bar : Type := mkBar {
  name : Timestamp;
  open : Q;
  high : Q;
  low : Q;
  close : Q;
  volume : Q
}.

Definition DataFrame : Type := list Bar.

Inductive Direction : Type := LONG | SHORT.
Inductive LevelType : Type := Round | PrevDay.
Inductive ExitReason : Type := STOP_LOSS | TP1 | TP2 | TIME_STOP.

(** The signal dictionaries built by [detect_signals]. *)
Record Signal : Type := mkSignal {
  timestamp : Timestamp;
  direction : Direction;
  entry_price : Q;
  stop_loss : Q;
  tp1 : Q;
  tp2 : Q;
  level_type : LevelType;
  entry_index : Z
}.

(** The trade dictionaries built by [execute_trades]. *)
Record Trade : Type := mkTrade {
  entry_time : Timestamp;
  t_direction : Direction;
  t_entry_price : Q;
  exit_price : Q;
  exit_reason : ExitReason;
  pips : Q;
  win : bool;
  bars_in_trade : Z;
  t_level_type : LevelType
}.

(** The metrics dictionary returned by [calculate_metrics]. *)
Record Metrics : Type := mkMetrics {
  total_trades : Z;
  winners : Z;
  losers : Z;
  win_rate : Q;
  total_pips : Q;
  avg_pips : Q;
  avg_win_pips : Q;
  avg_loss_pips : Q;
  profit_factor : Q;
  avg_bars_in_trade : Q
}.

(** ** [BacktestEngine.execute_trades] *)

Module Engine.

(** [max_bars = 60  # Max 5 hours (60 * 5min bars)] *)
Definition max_bars : Z := 60.

(** The exit tests made on one forward bar ([engine.py], lines 49-81):
    [Some (exit_price, exit_reason)] when a branch reaches [break]. *)
Definition check_exit (d : Direction) (bar : Bar) (sl t1 t2 : Q)
  : option (Q * ExitReason) :=
  match d with
  | LONG =>
      if low bar <=? sl then Some (sl, STOP_LOSS)
      else if high bar >=? t2 then Some (t2, TP2)
      else if high bar >=? t1 then Some (t1, TP1)
      else None
  | SHORT =>
      if high bar >=? sl then Some (sl, STOP_LOSS)
      else if low bar <=? t2 then Some (t2, TP2)
      else if low bar <=? t1 then Some (t1, TP1)
      else None
  end.

(** The forward loop [for i in range(...)]: the positions still to visit
    and the running [bars_in_trade]; the result is the exit found, if any,
    and the final counter. *)
Fixpoint scan_forward (df : DataFrame) (d : Direction) (sl t1 t2 : Q)
    (idxs : list Z) (bars : Z) : result (option (Q * ExitReason) * Z) :=
  match idxs with
  | [] => ret (None, bars)
  | i :: rest =>
      bar <- iloc df i ;;
      let bars := (bars + 1)%Z in
      match check_exit d bar sl t1 t2 with
      | Some e => ret (Some e, bars)
      | None => scan_forward df d sl t1 t2 rest bars
      end
  end.

(** The body of [for signal in signals]. *)
Definition execute_trade (df : DataFrame) (signal : Signal) : result Trade :=
  let entry_idx := entry_index signal in
  let d := direction signal in
  '(found, bars) <-
     scan_forward df d (stop_loss signal) (tp1 signal) (tp2 signal)
       (py_range (entry_idx + 1) (Z.min (entry_idx + max_bars) (len df))) 0%Z ;;
  '(exit_price, exit_reason) <-
     match found with
     | Some e => ret e
     | None =>
         bar <- iloc df (Z.min (entry_idx + max_bars - 1) (len df - 1)) ;;
         ret (close bar, TIME_STOP)
     end ;;
  let pips :=
    match d with
    | LONG => (exit_price - entry_price signal) / (1 # 10000)
    | SHORT => (entry_price signal - exit_price) / (1 # 10000)
    end in
  let win := pips >? 0 in
  ret {| entry_time := timestamp signal;
         t_direction := d;
         t_entry_price := entry_price signal;
         exit_price := exit_price;
         exit_reason := exit_reason;
         pips := pips;
         win := win;
         bars_in_trade := bars;
         t_level_type := level_type signal |}.

Fixpoint execute_trades (df : DataFrame) (signals : list Signal)
  : result (list Trade) :=
  match signals with
  | [] => ret []
  | signal :: rest =>
      t <- execute_trade df signal ;;
      ts <- execute_trades df rest ;;
      ret (t :: ts)
  end.

(** ** [BacktestEngine.calculate_metrics] *)

(** [trades_df[trades_df['win'] == True]] and [... == False] *)
Definition winners_of (trades : list Trade) : list Trade :=
  filter (fun t => Bool.eqb (win t) true) trades.
Definition losers_of (trades : list Trade) : list Trade :=
  filter (fun t => Bool.eqb (win t) false) trades.

Definition pips_of (trades : list Trade) : list Q := map pips trades.

(** Lines 143-145. *)
Definition gross_profit (trades : list Trade) : Q :=
  let w := winners_of trades in
  if (len w >? 0)%Z then Qsum (pips_of w) else 0.

Definition gross_loss (trades : list Trade) : Q :=
  let l := losers_of trades in
  if (len l >? 0)%Z then Qabs (Qsum (pips_of l)) else 0.

Definition raw_profit_factor (trades : list Trade) : Q :=
  if gross_loss trades >? 0
  then gross_profit trades / gross_loss trades
  else 0.

Definition calculate_metrics (trades_df : list Trade) : Metrics :=
  if (len trades_df =? 0)%Z then
    {| total_trades := 0; winners := 0; losers := 0; win_rate := 0;
       total_pips := 0; avg_pips := 0; avg_win_pips := 0;
       avg_loss_pips := 0; profit_factor := 0; avg_bars_in_trade := 0 |}
  else
    let total := len trades_df in
    let w := winners_of trades_df in
    let l := losers_of trades_df in
    let win_rate :=
      if (total >? 0)%Z
      then (inject_Z (len w) / inject_Z total) * 100 else 0 in
    let total_pips := Qsum (pips_of trades_df) in
    let avg_pips := Qmean (pips_of trades_df) in
    let profit_factor := raw_profit_factor trades_df in
    {| total_trades := total;
       winners := len w;
       losers := len l;
       win_rate := py_round win_rate 2;
       total_pips := py_round total_pips 2;
       avg_pips := py_round avg_pips 2;
       avg_win_pips :=
         if (len w >? 0)%Z then py_round (Qmean (pips_of w)) 2 else 0;
       avg_loss_pips :=
         if (len l >? 0)%Z then py_round (Qmean (pips_of l)) 2 else 0;
       profit_factor := py_round profit_factor 2;
       avg_bars_in_trade :=
         if (len trades_df >? 0)%Z
         then py_round
                (Qmean (map (fun t => inject_Z (bars_in_trade t)) trades_df)) 1
         else 0 |}.

End Engine.

(** ** [LondonImbalanceStrategy] *)

Module Strategy.

Record Strategy : Type := mkStrategy {
  volume_multiplier : Q;
  min_wick_pips : Q;
  min_body_pips : Q;
  ema_length : Q;
  stop_loss_pips : Q;
  tp1_pips : Q;
  tp2_pips : Q;
  pip_value : Q
}.

(** [__init__]: seven assignments of the arguments and the pip size.  A
    constructor may raise; this one contains no [raise] and no test. *)
Definition init (volume_multiplier min_wick_pips min_body_pips ema_length
                 stop_loss_pips tp1_pips tp2_pips : Q) : result Strategy :=
  ret {| volume_multiplier := volume_multiplier;
         min_wick_pips := min_wick_pips;
         min_body_pips := min_body_pips;
         ema_length := ema_length;
         stop_loss_pips := stop_loss_pips;
         tp1_pips := tp1_pips;
         tp2_pips := tp2_pips;
         pip_value := 1 # 10000 |}.

(** The keyword defaults of [__init__]. *)
Definition default : Strategy :=
  {| volume_multiplier := 15 # 10; min_wick_pips := 8; min_body_pips := 5;
     ema_length := 20; stop_loss_pips := 15; tp1_pips := 20; tp2_pips := 30;
     pip_value := 1 # 10000 |}.

Definition pips_to_price (self : Strategy) (p : Q) : Q := p * pip_value self.
Definition price_to_pips (self : Strategy) (price : Q) : Q :=
  price / pip_value self.

Definition is_london_session (ts : Timestamp) : bool :=
  ((8 <=? hour ts) && (hour ts <? 11))%Z.

Definition is_near_round_number (self : Strategy) (price : Q)
    (tolerance_pips : Z) : bool :=
  let price_in_pips := py_int (price / pip_value self) in
  let last_two_digits := (price_in_pips mod 100)%Z in
  if ((Z.abs last_two_digits <=? tolerance_pips)
      || (Z.abs (last_two_digits - 100) <=? tolerance_pips))%Z then true
  else if (Z.abs (last_two_digits - 50) <=? tolerance_pips)%Z then true
  else false.

(** *** Indicator columns *)

(** The frame returned by [calculate_indicators]: the price columns and the
    derived ones.  Columns that start with NaN hold [None] there. *)
Record IndicatorRow : Type := mkIndicatorRow {
  bar : Bar;
  ema_20 : Q;
  ema_slope : option Q;
  volume_ma : option Q;
  volume_spike : bool;
  body : Q;
  upper_wick : Q;
  lower_wick : Q;
  body_pips : Q;
  upper_wick_pips : Q;
  lower_wick_pips : Q;
  prev_day_high : option Q;
  prev_day_low : option Q
}.

Definition Qmax (x y : Q) : Q := if x <=? y then y else x.
Definition Qmin (x y : Q) : Q := if x <=? y then x else y.

(** [xs[lo:hi]] *)
Definition slice {A : Type} (xs : list A) (lo hi : nat) : list A :=
  firstn (hi - lo) (skipn lo xs).

(** [ewm(span=span, adjust=False).mean()]:
    [y0 = x0], [y_t = (1 - a) y_(t-1) + a x_t] with [a = 2 / (span + 1)];
    pandas refuses [span < 1]. *)
Fixpoint ewm_from (alpha prev : Q) (xs : list Q) : list Q :=
  match xs with
  | [] => []
  | x :: rest =>
      let y := (1 - alpha) * prev + alpha * x in
      y :: ewm_from alpha y rest
  end.

Definition ewm_mean (span : Q) (xs : list Q) : result (list Q) :=
  if span <? 1 then raise ValueError
  else
    let alpha := 2 / (span + 1) in
    match xs with
    | [] => ret []
    | x0 :: rest => ret (x0 :: ewm_from alpha x0 rest)
    end.

(** [Series.diff()] *)
Fixpoint diff_from (prev : Q) (xs : list Q) : list (option Q) :=
  match xs with
  | [] => []
  | x :: rest => Some (x - prev) :: diff_from x rest
  end.

Definition diff (xs : list Q) : list (option Q) :=
  match xs with
  | [] => []
  | x :: rest => None :: diff_from x rest
  end.

(** [rolling(window=w).mean()]: NaN until [w] values are available. *)
Definition rolling_mean (w : nat) (xs : list Q) : list (option Q) :=
  map (fun i =>
         if (i + 1 <? w)%nat then None
         else Some (Qsum (slice xs (i + 1 - w) (i + 1))
                    / inject_Z (Z.of_nat w)))
      (seq 0 (length xs)).

(** [shift(1).rolling(window=w, min_periods=1).max()] (or [.min()]): the
    extremum of the up to [w] values before position [i]; NaN at [0]. *)
Definition shift_rolling (ext : Q -> Q -> Q) (w : nat) (xs : list Q)
  : list (option Q) :=
  map (fun i =>
         match slice xs (i - w) i with
         | [] => None
         | x :: rest => Some (fold_left ext rest x)
         end)
      (seq 0 (length xs)).

(** [column > other] with NaN on the right. *)
Definition gt_nan (x : Q) (y : option Q) : bool :=
  match y with
  | Some v => x >? v
  | None => false
  end.

Section Indicators.

Variable self : Strategy.
Variables (ema : list Q) (slope vma pdh pdl : list (option Q)).

Definition indicator_row (i : nat) (b : Bar) : IndicatorRow :=
  let vol_ma := nth i vma None in
  let bd := Qabs (close b - open b) in
  let uw := high b - Qmax (open b) (close b) in
  let lw := Qmin (open b) (close b) - low b in
  {| bar := b;
     ema_20 := nth i ema 0;
     ema_slope := nth i slope None;
     volume_ma := vol_ma;
     volume_spike :=
       gt_nan (volume b)
         (option_map (fun m => m * volume_multiplier self) vol_ma);
     body := bd;
     upper_wick := uw;
     lower_wick := lw;
     body_pips := price_to_pips self bd;
     upper_wick_pips := price_to_pips self uw;
     lower_wick_pips := price_to_pips self lw;
     prev_day_high := nth i pdh None;
     prev_day_low := nth i pdl None |}.

Fixpoint augment (i : nat) (bars : list Bar) : list IndicatorRow :=
  match bars with
  | [] => []
  | b :: rest => indicator_row i b :: augment (S i) rest
  end.

End Indicators.

Definition calculate_indicators (self : Strategy) (df : DataFrame)
  : result (list IndicatorRow) :=
  ema <- ewm_mean (ema_length self) (map close df) ;;
  let slope := diff ema in
  let vma := rolling_mean 20 (map volume df) in
  let pdh := shift_rolling Qmax 288 (map high df) in
  let pdl := shift_rolling Qmin 288 (map low df) in
  ret (augment self ema slope vma pdh pdl 0 df).

(** *** Signal detection *)

(** [abs(row['close'] - level) < self.pips_to_price(5)], false on NaN. *)
Definition near_level (self : Strategy) (c : Q) (level : option Q) : bool :=
  match level with
  | Some v => Qabs (c - v) <? pips_to_price self 5
  | None => false
  end.

(** [row['ema_slope'] > 0] and [< 0], false on NaN. *)
Definition slope_pos (s : option Q) : bool :=
  match s with Some v => v >? 0 | None => false end.
Definition slope_neg (s : option Q) : bool :=
  match s with Some v => v <? 0 | None => false end.

Section Conditions.

Variable self : Strategy.
Variables row prev_row : IndicatorRow.

Definition at_round_number : bool :=
  is_near_round_number self (close (bar row)) 5.
Definition at_prev_day_high : bool :=
  near_level self (close (bar row)) (prev_day_high row).
Definition at_prev_day_low : bool :=
  near_level self (close (bar row)) (prev_day_low row).
Definition at_key_level : bool :=
  at_round_number || at_prev_day_high || at_prev_day_low.

Definition bullish_rejection : bool :=
  lower_wick_pips prev_row >=? min_wick_pips self.
Definition bearish_rejection : bool :=
  upper_wick_pips prev_row >=? min_wick_pips self.

Definition strong_body : bool := body_pips row >=? min_body_pips self.
Definition bullish_confirm : bool :=
  (close (bar row) >? open (bar row))
  && (close (bar row) >? high (bar prev_row)).
Definition bearish_confirm : bool :=
  (close (bar row) <? open (bar row))
  && (close (bar row) <? low (bar prev_row)).

Definition ema_bullish : bool :=
  slope_pos (ema_slope row) && (close (bar row) >? ema_20 row).
Definition ema_bearish : bool :=
  slope_neg (ema_slope row) && (close (bar row) <? ema_20 row).

(** The tests of the [if] (line 156) and of the [elif] (line 169). *)
Definition long_conditions : bool :=
  bullish_rejection && bullish_confirm && strong_body && ema_bullish.
Definition short_conditions : bool :=
  bearish_rejection && bearish_confirm && strong_body && ema_bearish.

(** The two dictionary literals appended to [signals]. *)
Definition long_signal (i : Z) : Signal :=
  let c := close (bar row) in
  {| timestamp := name (bar row);
     direction := LONG;
     entry_price := c;
     stop_loss := c - pips_to_price self (stop_loss_pips self);
     tp1 := c + pips_to_price self (tp1_pips self);
     tp2 := c + pips_to_price self (tp2_pips self);
     level_type := if at_round_number then Round else PrevDay;
     entry_index := i |}.

Definition short_signal (i : Z) : Signal :=
  let c := close (bar row) in
  {| timestamp := name (bar row);
     direction := SHORT;
     entry_price := c;
     stop_loss := c + pips_to_price self (stop_loss_pips self);
     tp1 := c - pips_to_price self (tp1_pips self);
     tp2 := c - pips_to_price self (tp2_pips self);
     level_type := if at_round_number then Round else PrevDay;
     entry_index := i |}.

(** The loop body once [row] and [prev_row] are fetched: [None] is a
    [continue] or a bar where neither branch fires. *)
Definition resolve (i : Z) : option Signal :=
  if negb (is_london_session (name (bar row))) then None
  else if negb at_key_level then None
  else if negb (volume_spike prev_row) then None
  else if long_conditions then Some (long_signal i)
  else if short_conditions then Some (short_signal i)
  else None.

End Conditions.

Definition signal_at (self : Strategy) (rows : list IndicatorRow) (i : Z)
  : result (option Signal) :=
  row <- iloc rows i ;;
  prev_row <- iloc rows (i - 1) ;;
  ret (resolve self row prev_row i).

(** [for i in range(100, len(df))], with the list [signals] so far. *)
Fixpoint detect_loop (self : Strategy) (rows : list IndicatorRow)
    (idxs : list Z) (signals : list Signal) : result (list Signal) :=
  match idxs with
  | [] => ret signals
  | i :: rest =>
      emitted <- signal_at self rows i ;;
      detect_loop self rows rest
        (match emitted with
         | Some s => signals ++ [s]
         | None => signals
         end)
  end.

Definition detect_signals (self : Strategy) (df : DataFrame)
  : result (list Signal) :=
  rows <- calculate_indicators self df ;;
  detect_loop self rows (py_range 100 (len rows)) [].

End Strategy.

(** ** [run_backtest] ([src/backtest_runner.py]) *)

Module Runner.

(** The computation of [run_backtest] once the price frame is loaded: the
    strategy is built with the arguments written in the script, signals are
    detected, the run stops with [None] when there is none, otherwise the
    trades are simulated and the metrics dictionary is returned.  The
    download, the console output and the files written are not modelled;
    [df] is the frame returned by [download_eurusd_data]. *)
Definition run_backtest (df : DataFrame) : result (option Metrics) :=
  strategy <- Strategy.init 1.5 8 5 20 15 20 30 ;;
  signals <- Strategy.detect_signals strategy df ;;
  if (len signals =? 0)%Z then ret None
  else
    trades_df <- Engine.execute_trades df signals ;;
    let metrics := Engine.calculate_metrics trades_df in
    ret (Some metrics).

End Runner.

(** ** Specification vocabulary and sample data *)

(** A forward bar on which none of the three exit tests of the direction
    succeeds. *)
Definition quiet (d : Direction) (sl t1 t2 : Q) (b : Bar) : Prop :=
  match d with
  | LONG => sl < low b /\ high b < t2 /\ high b < t1
  | SHORT => high b < sl /\ t2 < low b /\ t1 < low b
  end.

Module Sample.

(** Five-minute bars; bar 100 opens at 08:00 UTC. *)
Definition stamp (i : nat) : Timestamp :=
  mkTimestamp (85200 + 300 * Z.of_nat i).

Definition flat_bar (p : Q) (i : nat) : Bar := mkBar (stamp i) p p p p 100.

(** A Long entry at 1.0400 with the default distances. *)
Definition long_entry (i : Z) : Signal :=
  {| timestamp := stamp (Z.to_nat i); direction := LONG;
     entry_price := 1.0400; stop_loss := 1.0385; tp1 := 1.0420;
     tp2 := 1.0430; level_type := Round; entry_index := i |}.

Definition short_entry (i : Z) : Signal :=
  {| timestamp := stamp (Z.to_nat i); direction := SHORT;
     entry_price := 1.0400; stop_loss := 1.0415; tp1 := 1.0380;
     tp2 := 1.0370; level_type := Round; entry_index := i |}.

(** Entry bar, one calm bar, then a bar whose range spans the stop and
    both targets of [long_entry] (and of [short_entry]). *)
Definition wide_bar : Bar := mkBar (stamp 2) 1.0400 1.0440 1.0380 1.0400 100.
Definition wide_df : DataFrame :=
  [ flat_bar 1.0400 0; flat_bar 1.0401 1; wide_bar ].

(** Entry bar, one calm bar, then a bar that reaches both targets of
    [long_entry] but not its stop, and one that does so for
    [short_entry]. *)
Definition up_bar : Bar := mkBar (stamp 2) 1.0400 1.0440 1.0390 1.0435 100.
Definition up_df : DataFrame := [ flat_bar 1.0400 0; flat_bar 1.0401 1; up_bar ].
Definition down_bar : Bar := mkBar (stamp 2) 1.0400 1.0410 1.0360 1.0365 100.
Definition down_df : DataFrame :=
  [ flat_bar 1.0400 0; flat_bar 1.0401 1; down_bar ].

(** One hundred bars drifting up by a hundredth of a pip per bar, so every
    bar has its own close and none comes near a stop or a target. *)
Definition drift_bar (i : nat) : Bar :=
  flat_bar (1.0400 + inject_Z (Z.of_nat i) / 1000000) i.
Definition drift_df : DataFrame := map drift_bar (seq 0 100).

(** One hundred bars that all stay at the entry price. *)
Definition still_df : DataFrame := map (flat_bar 1.0400) (seq 0 100).

(** A frame of 101 bars whose last two bars form a Long setup closing at
    1.0400: ninety-nine flat bars at 1.0392, a high-volume bar with a
    10-pip lower wick, then a 7-pip bullish bar closing above its high,
    at 08:00 UTC. *)
Definition long_df : DataFrame :=
  map (flat_bar 1.0392) (seq 0 99)
  ++ [ mkBar (stamp 99) 1.0392 1.0394 1.0382 1.0393 1000;
       mkBar (stamp 100) 1.0393 1.0401 1.0392 1.0400 100 ].

(** The mirror image: a Short setup closing at 1.0400. *)
Definition short_df : DataFrame :=
  map (flat_bar 1.0408) (seq 0 99)
  ++ [ mkBar (stamp 99) 1.0408 1.0418 1.0406 1.0407 1000;
       mkBar (stamp 100) 1.0407 1.0408 1.0399 1.0400 100 ].

(** What the detector returns on [long_df] with the default parameters. *)
Definition long_df_signals : result (list Signal) :=
  Eval vm_compute in Strategy.detect_signals Strategy.default long_df.



(** A trade book with one Target1 winner of 20 pips and one stopped-out
    loser of 15 pips. *)
Definition winner20 : Trade :=
  {| entry_time := stamp 100; t_direction := LONG; t_entry_price := 1.0400;
     exit_price := 1.0420; exit_reason := TP1; pips := 20; win := true;
     bars_in_trade := 7; t_level_type := Round |}.
Definition loser15 : Trade :=
  {| entry_time := stamp 130; t_direction := LONG; t_entry_price := 1.0400;
     exit_price := 1.0385; exit_reason := STOP_LOSS; pips := -15;
     win := false; bars_in_trade := 3; t_level_type := PrevDay |}.

End Sample.

(** * Properties *)

(** ** Arithmetic and list facts *)

Lemma Qltb_iff (x y : Q) : (x <? y) = true <-> x < y.
Proof.
  unfold Qltb. rewrite negb_true_iff. split.
  - intros H. apply Qnot_le_lt. intros Hle.
    apply Qle_bool_iff in Hle. congruence.
  - intros H. destruct (Qle_bool y x) eqn:E; [ | reflexivity ].
    apply Qle_bool_iff in E. exfalso. exact (Qlt_not_le _ _ H E).
Qed.

Lemma Qleb_false_iff (x y : Q) : (x <=? y) = false <-> y < x.
Proof.
  rewrite <- Qltb_iff. unfold Qltb. rewrite negb_true_iff. tauto.
Qed.

Lemma Qltb_irrefl (x : Q) : (x <? x) = false.
Proof.
  destruct (x <? x) eqn:E; [ | reflexivity ].
  apply Qltb_iff in E. exfalso. exact (Qlt_irrefl _ E).
Qed.

Lemma range_from_length (n : nat) : forall a, length (range_from a n) = n.
Proof.
  induction n as [ | n IH ]; intros a; simpl; [ | rewrite IH ]; reflexivity.
Qed.

Lemma range_from_In (n : nat) :
  forall a i, In i (range_from a n) <-> (a <= i < a + Z.of_nat n)%Z.
Proof.
  induction n as [ | n IH ]; intros a i; simpl.
  - lia.
  - rewrite IH. lia.
Qed.

Lemma range_from_app (n m : nat) :
  forall a,
    range_from a (n + m) = range_from a n ++ range_from (a + Z.of_nat n) m.
Proof.
  induction n as [ | n IH ]; intros a.
  - simpl. f_equal. lia.
  - cbn [Nat.add range_from app]. rewrite IH. do 3 f_equal. lia.
Qed.

Lemma range_from_NoDup (n : nat) : forall a, NoDup (range_from a n).
Proof.
  induction n as [ | n IH ]; intros a; simpl; constructor.
  - rewrite range_from_In. lia.
  - apply IH.
Qed.

Lemma py_range_In (a b i : Z) : In i (py_range a b) <-> (a <= i < b)%Z.
Proof. unfold py_range. rewrite range_from_In. lia. Qed.

Lemma py_range_len (a b : Z) : len (py_range a b) = Z.max 0 (b - a).
Proof. unfold py_range, len. rewrite range_from_length. lia. Qed.

Lemma py_range_split (a j b : Z) :
  (a <= j < b)%Z -> py_range a b = py_range a j ++ j :: py_range (j + 1) b.
Proof.
  intros H. unfold py_range.
  replace (Z.to_nat (b - a))
    with (Z.to_nat (j - a) + S (Z.to_nat (b - (j + 1))))%nat by lia.
  rewrite range_from_app. cbn [range_from].
  replace (a + Z.of_nat (Z.to_nat (j - a)))%Z with j by lia.
  reflexivity.
Qed.

Lemma iloc_nonneg {A : Type} (df : list A) (k : Z) :
  (0 <= k)%Z ->
  iloc df k = match nth_error df (Z.to_nat k) with
              | Some row => inr row
              | None => inl IndexError
              end.
Proof.
  intros H. unfold iloc. cbv zeta.
  destruct (Z.ltb_spec k 0) as [ Hneg | _ ]; [ lia | ].
  destruct (Z.ltb_spec k 0) as [ Hneg | _ ]; [ lia | ].
  reflexivity.
Qed.

Lemma iloc_in_range {A : Type} (df : list A) (k : Z) :
  (0 <= k < len df)%Z -> exists row, iloc df k = inr row.
Proof.
  intros H. rewrite iloc_nonneg by lia. unfold len in H.
  destruct (nth_error df (Z.to_nat k)) as [ row | ] eqn:E.
  - exists row. reflexivity.
  - apply nth_error_None in E. lia.
Qed.

Lemma iloc_nth_error {A : Type} (df : list A) (k : Z) (row : A) :
  (0 <= k)%Z -> iloc df k = inr row -> nth_error df (Z.to_nat k) = Some row.
Proof.
  intros H. rewrite iloc_nonneg by lia.
  destruct (nth_error df (Z.to_nat k)); congruence.
Qed.

Lemma iloc_nil {A : Type} (k : Z) : iloc (@nil A) k = inl IndexError.
Proof.
  unfold iloc, len. cbv zeta. cbn [length Z.of_nat Z.add].
  destruct (Z.ltb_spec k 0) as [ Hneg | Hpos ].
  - destruct (Z.ltb_spec k 0); [ reflexivity | lia ].
  - destruct (Z.ltb_spec k 0); [ lia | ].
    destruct (Z.to_nat k); reflexivity.
Qed.

Lemma filter_partition_length {A : Type} (f : A -> bool) (l : list A) :
  (length (filter f l) + length (filter (fun x => negb (f x)) l)
   = length l)%nat.
Proof.
  induction l as [ | x l IH ]; simpl; [ reflexivity | ].
  destruct (f x); simpl; lia.
Qed.

(** ** The forward scan of [execute_trades] *)

Section Scan.

Import Engine.

Variable df : DataFrame.
Variable d : Direction.
Variables sl t1 t2 : Q.

Lemma check_exit_quiet (b : Bar) :
  check_exit d b sl t1 t2 = None <-> quiet d sl t1 t2 b.
Proof.
  unfold check_exit, quiet. destruct d.
  - destruct (low b <=? sl) eqn:E1; [ | destruct (t2 <=? high b) eqn:E2;
      [ | destruct (t1 <=? high b) eqn:E3 ] ];
      rewrite ?Qle_bool_iff, ?Qleb_false_iff in *; split;
      try discriminate; try tauto; intros (H1 & H2 & H3).
    + exfalso. exact (Qlt_not_le _ _ H1 E1).
    + exfalso. exact (Qlt_not_le _ _ H2 E2).
    + exfalso. exact (Qlt_not_le _ _ H3 E3).
  - destruct (sl <=? high b) eqn:E1; [ | destruct (low b <=? t2) eqn:E2;
      [ | destruct (low b <=? t1) eqn:E3 ] ];
      rewrite ?Qle_bool_iff, ?Qleb_false_iff in *; split;
      try discriminate; try tauto; intros (H1 & H2 & H3).
    + exfalso. exact (Qlt_not_le _ _ H1 E1).
    + exfalso. exact (Qlt_not_le _ _ H2 E2).
    + exfalso. exact (Qlt_not_le _ _ H3 E3).
Qed.

(** The counter only grows, by at most one per position visited. *)
Lemma scan_forward_bars (idxs : list Z) :
  forall bars found bars',
    scan_forward df d sl t1 t2 idxs bars = inr (found, bars') ->
    (bars <= bars' <= bars + len idxs)%Z.
Proof.
  unfold len. induction idxs as [ | i rest IH ]; intros bars found bars' H.
  - cbn in H. injection H as _ <-. cbn. lia.
  - cbn [scan_forward] in H. unfold bind in H.
    destruct (iloc df i) as [ e | b ]; [ discriminate | ].
    destruct (check_exit d b sl t1 t2) as [ ex | ].
    + injection H as _ <-. cbn [length]. lia.
    + apply IH in H. cbn [length]. lia.
Qed.

(** Positions on which no test succeeds are passed over. *)
Lemma scan_forward_skip (pre rest : list Z) :
  forall bars,
    (forall i, In i pre ->
       exists b, iloc df i = inr b /\ quiet d sl t1 t2 b) ->
    scan_forward df d sl t1 t2 (pre ++ rest) bars
    = scan_forward df d sl t1 t2 rest (bars + len pre)%Z.
Proof.
  unfold len. induction pre as [ | i pre IH ]; intros bars H.
  - cbn. f_equal. lia.
  - destruct (H i (or_introl eq_refl)) as (b & Hb & Hq).
    apply check_exit_quiet in Hq.
    cbn [app scan_forward]. rewrite Hb. unfold bind. rewrite Hq.
    rewrite IH by (intros k Hk; apply H; right; exact Hk).
    f_equal. cbn [length]. lia.
Qed.

Lemma scan_forward_hit (j : Z) (post : list Z) (b : Bar)
    (e : Q * ExitReason) (bars : Z) :
  iloc df j = inr b ->
  check_exit d b sl t1 t2 = Some e ->
  scan_forward df d sl t1 t2 (j :: post) bars = inr (Some e, (bars + 1)%Z).
Proof.
  intros Hb He. cbn [scan_forward]. rewrite Hb. unfold bind. rewrite He.
  reflexivity.
Qed.

Lemma scan_forward_calm (idxs : list Z) (bars : Z) :
  (forall i, In i idxs ->
     exists b, iloc df i = inr b /\ quiet d sl t1 t2 b) ->
  scan_forward df d sl t1 t2 idxs bars = inr (None, (bars + len idxs)%Z).
Proof.
  intros H. rewrite <- (app_nil_r idxs) at 1.
  rewrite scan_forward_skip by exact H. reflexivity.
Qed.

End Scan.

(** ** One simulated trade *)

Section Trade.

Import Engine.

Variable df : DataFrame.
Variable s : Signal.

Let entry := entry_index s.
Let horizon := Z.min (entry + max_bars) (len df).

(** What a returned trade record says about the run that built it. *)
Lemma execute_trade_inv (t : Trade) :
  execute_trade df s = inr t ->
  exists found,
    scan_forward df (direction s) (stop_loss s) (tp1 s) (tp2 s)
      (py_range (entry + 1) horizon) 0%Z = inr (found, bars_in_trade t)
    /\ win t = (pips t >? 0)
    /\ t_direction t = direction s
    /\ t_entry_price t = entry_price s.
Proof.
  unfold execute_trade. cbv zeta. fold entry. fold horizon.
  unfold bind at 1.
  destruct (scan_forward _ _ _ _ _ _ _) as [ e | [ found bars ] ];
    [ discriminate | ].
  intros H. exists found.
  destruct found as [ [ ep er ] | ].
  - cbn in H. injection H as <-. cbn. auto.
  - unfold bind in H.
    destruct (iloc df _) as [ e | last ]; [ discriminate | ].
    cbn in H. injection H as <-. cbn. auto.
Qed.

Lemma execute_trade_horizon (t : Trade) :
  execute_trade df s = inr t ->
  (0 <= bars_in_trade t <= max_bars - 1)%Z.
Proof.
  intros H. apply execute_trade_inv in H as (found & Hscan & _).
  apply scan_forward_bars in Hscan. rewrite py_range_len in Hscan.
  subst horizon. unfold max_bars in *. lia.
Qed.

(** The first forward bar on which a test succeeds decides the trade. *)
Lemma execute_trade_first_exit (j : Z) (b : Bar) (e : Q * ExitReason) :
  (0 <= entry)%Z ->
  (entry < j < horizon)%Z ->
  (forall i bi, (entry < i < j)%Z -> iloc df i = inr bi ->
                quiet (direction s) (stop_loss s) (tp1 s) (tp2 s) bi) ->
  iloc df j = inr b ->
  check_exit (direction s) b (stop_loss s) (tp1 s) (tp2 s) = Some e ->
  exists t,
    execute_trade df s = inr t
    /\ exit_price t = fst e
    /\ exit_reason t = snd e
    /\ bars_in_trade t = (j - entry)%Z.
Proof.
  intros Hentry Hj Hcalm Hb He.
  unfold execute_trade. cbv zeta. fold entry. fold horizon.
  rewrite (py_range_split (entry + 1) j horizon) by lia.
  rewrite scan_forward_skip.
  - rewrite (scan_forward_hit _ _ _ _ _ _ _ b e) by assumption.
    destruct e as [ ep er ]. cbn.
    eexists. split; [ reflexivity | ]. cbn.
    rewrite py_range_len. repeat split. lia.
  - intros i Hi. apply py_range_In in Hi.
    destruct (iloc_in_range df i) as (bi & Hbi);
      [ subst horizon; lia | ].
    exists bi. split; [ exact Hbi | ]. apply (Hcalm i); [ lia | exact Hbi ].
Qed.

(** With no test succeeding on any bar scanned, the trade closes on the
    close of position [min (entry + max_bars - 1) (len df - 1)], having
    counted the bars scanned. *)
Lemma execute_trade_time_stop :
  (0 <= entry < len df)%Z ->
  (forall i bi, (entry < i < horizon)%Z -> iloc df i = inr bi ->
                quiet (direction s) (stop_loss s) (tp1 s) (tp2 s) bi) ->
  exists t last,
    execute_trade df s = inr t
    /\ iloc df (Z.min (entry + max_bars - 1) (len df - 1)) = inr last
    /\ exit_reason t = TIME_STOP
    /\ exit_price t = close last
    /\ bars_in_trade t = (horizon - entry - 1)%Z.
Proof.
  intros Hentry Hcalm.
  destruct (iloc_in_range df (Z.min (entry + max_bars - 1) (len df - 1)))
    as (last & Hlast); [ unfold max_bars; lia | ].
  unfold execute_trade. cbv zeta. fold entry. fold horizon.
  rewrite scan_forward_calm.
  - cbn. rewrite Hlast. cbn.
    eexists. exists last. split; [ reflexivity | ]. cbn.
    rewrite py_range_len. repeat split.
    subst horizon. unfold max_bars. lia.
  - intros i Hi. apply py_range_In in Hi.
    destruct (iloc_in_range df i) as (bi & Hbi);
      [ subst horizon; lia | ].
    exists bi. split; [ exact Hbi | ]. apply (Hcalm i); [ lia | exact Hbi ].
Qed.

End Trade.

Lemma execute_trades_Forall (P : Trade -> Prop) (df : DataFrame) :
  (forall s t, Engine.execute_trade df s = inr t -> P t) ->
  forall signals trades,
    Engine.execute_trades df signals = inr trades -> Forall P trades.
Proof.
  intros HP. induction signals as [ | s rest IH ]; intros trades H.
  - cbn in H. injection H as <-. constructor.
  - cbn [Engine.execute_trades] in H. unfold bind in H.
    destruct (Engine.execute_trade df s) as [ e | t ] eqn:Et;
      [ discriminate | ].
    destruct (Engine.execute_trades df rest) as [ e | ts ];
      [ discriminate | ].
    injection H as <-. constructor; [ exact (HP s t Et) | ].
    apply IH. reflexivity.
Qed.

(** ** Exit priority, horizon and time stop *)

Lemma check_exit_long_stop (b : Bar) (sl t1 t2 : Q) :
  low b <= sl -> Engine.check_exit LONG b sl t1 t2 = Some (sl, STOP_LOSS).
Proof.
  intros H. apply Qle_bool_iff in H. unfold Engine.check_exit.
  rewrite H. reflexivity.
Qed.

Lemma check_exit_long_tp2 (b : Bar) (sl t1 t2 : Q) :
  sl < low b -> t2 <= high b ->
  Engine.check_exit LONG b sl t1 t2 = Some (t2, TP2).
Proof.
  intros H1 H2. apply Qleb_false_iff in H1. apply Qle_bool_iff in H2.
  unfold Engine.check_exit. rewrite H1, H2. reflexivity.
Qed.

Lemma check_exit_short_stop (b : Bar) (sl t1 t2 : Q) :
  sl <= high b -> Engine.check_exit SHORT b sl t1 t2 = Some (sl, STOP_LOSS).
Proof.
  intros H. apply Qle_bool_iff in H. unfold Engine.check_exit.
  rewrite H. reflexivity.
Qed.

Lemma check_exit_short_tp2 (b : Bar) (sl t1 t2 : Q) :
  high b < sl -> low b <= t2 ->
  Engine.check_exit SHORT b sl t1 t2 = Some (t2, TP2).
Proof.
  intros H1 H2. apply Qleb_false_iff in H1. apply Qle_bool_iff in H2.
  unfold Engine.check_exit. rewrite H1, H2. reflexivity.
Qed.

(** C1.  Let bar [j] be the first forward bar of a trade, inside the
    scanned window, on which some exit test succeeds.  For a Long trade: if
    its low is at or below the stop, the trade exits with reason StopLoss at
    the stop price, whatever its high is (so also when a target is reached
    on the same bar); if its low is above the stop and its high reaches
    target2, the trade exits at target2 with reason Target2, even though
    target1 may be reached as well.  For a Short trade the same holds with
    high and low exchanged. *)
Theorem exit_priority (df : DataFrame) (s : Signal) (j : Z) (b : Bar) :
  (0 <= entry_index s)%Z ->
  (entry_index s < j
   < Z.min (entry_index s + Engine.max_bars) (len df))%Z ->
  (forall i bi, (entry_index s < i < j)%Z -> iloc df i = inr bi ->
                quiet (direction s) (stop_loss s) (tp1 s) (tp2 s) bi) ->
  iloc df j = inr b ->
  match direction s with
  | LONG =>
      (low b <= stop_loss s ->
       exists t, Engine.execute_trade df s = inr t
                 /\ exit_reason t = STOP_LOSS
                 /\ exit_price t = stop_loss s
                 /\ bars_in_trade t = (j - entry_index s)%Z)
      /\ (stop_loss s < low b -> tp2 s <= high b ->
          exists t, Engine.execute_trade df s = inr t
                    /\ exit_reason t = TP2
                    /\ exit_price t = tp2 s
                    /\ bars_in_trade t = (j - entry_index s)%Z)
  | SHORT =>
      (stop_loss s <= high b ->
       exists t, Engine.execute_trade df s = inr t
                 /\ exit_reason t = STOP_LOSS
                 /\ exit_price t = stop_loss s
                 /\ bars_in_trade t = (j - entry_index s)%Z)
      /\ (high b < stop_loss s -> low b <= tp2 s ->
          exists t, Engine.execute_trade df s = inr t
                    /\ exit_reason t = TP2
                    /\ exit_price t = tp2 s
                    /\ bars_in_trade t = (j - entry_index s)%Z)
  end.
Proof.
  intros Hentry Hj Hcalm Hb.
  pose proof (execute_trade_first_exit df s j b) as First.
  destruct (direction s); split.
  - intros Hstop.
    destruct (First (stop_loss s, STOP_LOSS)) as (t & Ht & Hp & Hr & Hn);
      auto using check_exit_long_stop.
    exists t. auto.
  - intros Hstop Htp2.
    destruct (First (tp2 s, TP2)) as (t & Ht & Hp & Hr & Hn);
      auto using check_exit_long_tp2.
    exists t. auto.
  - intros Hstop.
    destruct (First (stop_loss s, STOP_LOSS)) as (t & Ht & Hp & Hr & Hn);
      auto using check_exit_short_stop.
    exists t. auto.
  - intros Hstop Htp2.
    destruct (First (tp2 s, TP2)) as (t & Ht & Hp & Hr & Hn);
      auto using check_exit_short_tp2.
    exists t. auto.
Qed.

Lemma wide_df_calm (d : Direction) (sl t1 t2 : Q) (i : Z) (bi : Bar) :
  (0 < i < 2)%Z -> iloc Sample.wide_df i = inr bi ->
  bi = Sample.flat_bar 1.0401 1.
Proof.
  intros Hi H. assert (i = 1%Z) as -> by lia.
  cbv in H. injection H as <-. reflexivity.
Qed.

(** A bar spanning the stop and both targets of a Long entry at 1.0400:
    the trade is stopped out at 1.0385. *)
Lemma exit_priority_witness :
  exists t, Engine.execute_trade Sample.wide_df (Sample.long_entry 0) = inr t
            /\ exit_reason t = STOP_LOSS
            /\ exit_price t = 1.0385
            /\ bars_in_trade t = 2%Z.
Proof.
  refine (proj1 (exit_priority Sample.wide_df (Sample.long_entry 0) 2
                   Sample.wide_bar _ _ _ _) _).
  - cbn. lia.
  - cbv. split; reflexivity.
  - intros i bi Hi Hbi. cbn in Hi.
    rewrite (wide_df_calm LONG 0 0 0 i bi Hi Hbi).
    cbv. repeat split; reflexivity.
  - reflexivity.
  - cbv. discriminate.
Defined.

(** The same three bars for a Short entry, and the bars that reach both
    targets without touching the stop. *)
Example short_wide_bar_stops :
  option_map (fun t => (exit_reason t, exit_price t))
    (match Engine.execute_trade Sample.wide_df (Sample.short_entry 0) with
     | inr t => Some t | inl _ => None end)
  = Some (STOP_LOSS, 1.0415).
Proof. vm_compute. reflexivity. Qed.

Example long_up_bar_takes_tp2 :
  option_map (fun t => (exit_reason t, exit_price t))
    (match Engine.execute_trade Sample.up_df (Sample.long_entry 0) with
     | inr t => Some t | inl _ => None end)
  = Some (TP2, 1.0430).
Proof. vm_compute. reflexivity. Qed.

Example short_down_bar_takes_tp2 :
  option_map (fun t => (exit_reason t, exit_price t))
    (match Engine.execute_trade Sample.down_df (Sample.short_entry 0) with
     | inr t => Some t | inl _ => None end)
  = Some (TP2, 1.0370).
Proof. vm_compute. reflexivity. Qed.

(** C3.  Whatever the price frame and the signals, every trade record the
    simulator returns has [bars_in_trade <= max_bars] (60). *)
Theorem horizon_bound (df : DataFrame) (signals : list Signal)
    (trades : list Trade) :
  Engine.execute_trades df signals = inr trades ->
  Forall (fun t => (bars_in_trade t <= Engine.max_bars)%Z) trades.
Proof.
  apply execute_trades_Forall. intros s t H.
  apply execute_trade_horizon in H. lia.
Qed.

Lemma horizon_bound_witness :
  exists trades,
    Engine.execute_trades Sample.drift_df
      [ Sample.long_entry 0; Sample.short_entry 70 ] = inr trades
    /\ Forall (fun t => (bars_in_trade t <= Engine.max_bars)%Z) trades.
Proof.
  eexists. split.
  - vm_compute. reflexivity.
  - apply (horizon_bound Sample.drift_df
             [ Sample.long_entry 0; Sample.short_entry 70 ]).
    vm_compute. reflexivity.
Defined.

(** The simulator fails only on an empty frame or a position it cannot
    read; on a non-empty frame with entries inside it, it returns. *)
Lemma execute_trade_returns (df : DataFrame) (s : Signal) :
  (0 <= entry_index s < len df)%Z ->
  exists t, Engine.execute_trade df s = inr t.
Proof.
  intros Hentry.
  set (horizon := Z.min (entry_index s + Engine.max_bars) (len df)).
  assert (forall n : nat,
            (forall i bi, (entry_index s < i
                           < entry_index s + 1 + Z.of_nat n)%Z ->
                          (i < horizon)%Z -> iloc df i = inr bi ->
               quiet (direction s) (stop_loss s) (tp1 s) (tp2 s) bi)
            \/ exists t, Engine.execute_trade df s = inr t) as Hscan.
  { induction n as [ | n IH ].
    - left. intros i bi Hi. lia.
    - destruct IH as [ IH | IH ]; [ | right; exact IH ].
      set (j := (entry_index s + 1 + Z.of_nat n)%Z).
      destruct (Z_lt_dec j horizon) as [ Hj | Hj ].
      + destruct (iloc_in_range df j) as (b & Hb);
          [ subst j horizon; lia | ].
        destruct (Engine.check_exit (direction s) b (stop_loss s)
                    (tp1 s) (tp2 s)) as [ e | ] eqn:He.
        * right.
          destruct (execute_trade_first_exit df s j b e)
            as (t & Ht & _); try assumption; try lia.
          -- intros i bi Hi Hbi.
             apply (IH i); try assumption; unfold j, horizon in *; lia.
          -- exists t. exact Ht.
        * left. intros i bi Hi Hh Hbi.
          destruct (Z.eq_dec i j) as [ -> | Hne ].
          -- rewrite Hb in Hbi. injection Hbi as <-.
             apply check_exit_quiet. exact He.
          -- apply (IH i); try assumption. unfold j in *. lia.
      + left. intros i bi Hi Hh Hbi.
        apply (IH i); try assumption. unfold j in *. lia. }
  destruct (Hscan (Z.to_nat Engine.max_bars)) as [ Hcalm | Ht ];
    [ | exact Ht ].
  destruct (execute_trade_time_stop df s Hentry) as (t & last & Ht & _).
  - intros i bi Hi Hbi. apply (Hcalm i); try assumption;
      unfold horizon, Engine.max_bars in *; lia.
  - exists t. exact Ht.
Qed.

Lemma execute_trade_full_horizon (df : DataFrame) (s : Signal) :
  (0 <= entry_index s)%Z ->
  (entry_index s + Engine.max_bars <= len df)%Z ->
  (forall i bi,
     (entry_index s < i < entry_index s + Engine.max_bars)%Z ->
     iloc df i = inr bi ->
     quiet (direction s) (stop_loss s) (tp1 s) (tp2 s) bi) ->
  exists t last,
    Engine.execute_trade df s = inr t
    /\ iloc df (entry_index s + (Engine.max_bars - 1)) = inr last
    /\ exit_reason t = TIME_STOP
    /\ exit_price t = close last
    /\ bars_in_trade t = (Engine.max_bars - 1)%Z.
Proof.
  intros Hentry Hlen Hcalm.
  destruct (execute_trade_time_stop df s)
    as (t & last & Ht & Hlast & Hr & Hp & Hn).
  - unfold Engine.max_bars in *. lia.
  - intros i bi Hi. apply Hcalm. lia.
  - exists t, last. split; [ exact Ht | ].
    replace (entry_index s + (Engine.max_bars - 1))%Z
      with (Z.min (entry_index s + Engine.max_bars - 1) (len df - 1))
      by lia.
    repeat split; try assumption. rewrite Hn. lia.
Qed.

Lemma drift_df_calm :
  forall i b, (0 < i <= 60)%Z -> iloc Sample.drift_df i = inr b ->
              quiet LONG 1.0385 1.0420 1.0430 b.
Proof.
  intros i b Hi Hb. apply check_exit_quiet.
  assert (forallb
            (fun x => match Engine.check_exit LONG x 1.0385 1.0420 1.0430 with
                      | None => true
                      | Some _ => false
                      end) Sample.drift_df = true) as Hall
    by (vm_compute; reflexivity).
  rewrite forallb_forall in Hall.
  apply iloc_nth_error in Hb; [ | lia ]. apply nth_error_In in Hb.
  specialize (Hall b Hb).
  destruct (Engine.check_exit LONG b 1.0385 1.0420 1.0430);
    [ discriminate | reflexivity ].
Qed.

(** C2.  A Long entry at position 0 of one hundred calm bars: none of the
    sixty forward bars touches the stop or a target, and the trade is closed
    with reason TimeStop after 59 bars, at the close of forward bar 59, which
    differs from the close of forward bar 60. *)
Theorem time_stop_after_59_bars :
  (forall i b, (0 < i <= 60)%Z -> iloc Sample.drift_df i = inr b ->
               quiet LONG 1.0385 1.0420 1.0430 b)
  /\ exists t b59 b60,
       Engine.execute_trade Sample.drift_df (Sample.long_entry 0) = inr t
       /\ iloc Sample.drift_df 59 = inr b59
       /\ iloc Sample.drift_df 60 = inr b60
       /\ exit_reason t = TIME_STOP
       /\ bars_in_trade t = 59%Z
       /\ exit_price t = close b59
       /\ ~ exit_price t == close b60.
Proof.
  split; [ exact drift_df_calm | ].
  eexists. eexists. eexists.
  split; [ vm_compute; reflexivity | ].
  split; [ vm_compute; reflexivity | ].
  split; [ vm_compute; reflexivity | ].
  split; [ reflexivity | ].
  split; [ reflexivity | ].
  split; [ vm_compute; reflexivity | ].
  unfold Qeq. vm_compute. discriminate.
Qed.

(** ** Metrics *)

Section Metrics.

Import Engine.

Lemma len_nonempty {A : Type} (l : list A) :
  l <> [] -> (len l =? 0)%Z = false.
Proof.
  intros H. destruct l; [ congruence | ]. unfold len. cbn [length].
  apply Z.eqb_neq. lia.
Qed.

Lemma profit_factor_field (trades : list Trade) :
  trades <> [] ->
  profit_factor (calculate_metrics trades)
  = py_round (raw_profit_factor trades) 2.
Proof.
  intros H. unfold calculate_metrics. rewrite (len_nonempty _ H).
  reflexivity.
Qed.

Lemma gross_loss_nonneg (trades : list Trade) : 0 <= gross_loss trades.
Proof.
  unfold gross_loss. destruct (len (losers_of trades) >? 0)%Z.
  - apply Qabs_nonneg.
  - apply Qle_refl.
Qed.

Lemma all_winners_gross_loss (trades : list Trade) :
  (forall t, In t trades -> win t = true) -> gross_loss trades = 0.
Proof.
  intros Hall. unfold gross_loss, losers_of.
  replace (filter (fun t => Bool.eqb (win t) false) trades)
    with (@nil Trade); [ reflexivity | ].
  symmetry. induction trades as [ | t rest IH ]; [ reflexivity | ].
  cbn [filter]. rewrite (Hall t (or_introl eq_refl)). cbn.
  apply IH. intros u Hu. apply Hall. right. exact Hu.
Qed.

Lemma winners_losers_total (trades : list Trade) :
  (len (winners_of trades) + len (losers_of trades) = len trades)%Z.
Proof.
  unfold len, winners_of, losers_of.
  pose proof (filter_partition_length
                (fun t => Bool.eqb (win t) true) trades) as Hsplit.
  rewrite (filter_ext (fun t => Bool.eqb (win t) false)
             (fun t => negb (Bool.eqb (win t) true))).
  - lia.
  - intros t. destruct (win t); reflexivity.
Qed.

End Metrics.

(** C4 as stated fails on the returned value: with 20 pips won and 15 pips
    lost the gross loss is positive, yet the returned profit factor is 1.33
    and not 20/15. *)
Lemma profit_factor_not_exact_quotient :
  let trades := [ Sample.winner20; Sample.loser15 ] in
  trades <> []
  /\ 0 < Engine.gross_loss trades
  /\ profit_factor (Engine.calculate_metrics trades) == 1.33
  /\ ~ profit_factor (Engine.calculate_metrics trades)
       == Engine.gross_profit trades / Engine.gross_loss trades.
Proof.
  cbv zeta. split; [ discriminate | ].
  split; [ vm_compute; reflexivity | ].
  split; [ vm_compute; reflexivity | ].
  unfold Qeq. vm_compute. discriminate.
Qed.

(** C4, amended.  For a non-empty trade set: when the gross loss is 0 (in
    particular when every trade is a winner) the returned profit factor is
    0; when the gross loss is positive it is gross profit divided by gross
    loss, rounded to two decimals. *)
Theorem profit_factor_convention (trades : list Trade) :
  trades <> [] ->
  (Engine.gross_loss trades == 0 ->
   profit_factor (Engine.calculate_metrics trades) == 0)
  /\ ((forall t, In t trades -> win t = true) ->
      profit_factor (Engine.calculate_metrics trades) == 0)
  /\ (0 < Engine.gross_loss trades ->
      profit_factor (Engine.calculate_metrics trades)
      = py_round (Engine.gross_profit trades / Engine.gross_loss trades) 2).
Proof.
  intros Hne. rewrite (profit_factor_field trades Hne).
  unfold Engine.raw_profit_factor.
  assert (Engine.gross_loss trades == 0 ->
          py_round (if Engine.gross_loss trades >? 0
                    then Engine.gross_profit trades / Engine.gross_loss trades
                    else 0) 2 == 0) as Hzero.
  { intros H0.
    destruct (Engine.gross_loss trades >? 0) eqn:E.
    - apply Qltb_iff in E. rewrite H0 in E.
      exfalso. exact (Qlt_irrefl _ E).
    - vm_compute. reflexivity. }
  split; [ exact Hzero | ]. split.
  - intros Hall. apply Hzero.
    rewrite (all_winners_gross_loss trades Hall). reflexivity.
  - intros Hpos. apply Qltb_iff in Hpos. rewrite Hpos. reflexivity.
Qed.

(** An all-winners book: the profit factor returned is 0. *)
Lemma profit_factor_convention_witness :
  profit_factor (Engine.calculate_metrics [ Sample.winner20 ]) == 0.
Proof.
  apply (proj1 (proj2 (profit_factor_convention [ Sample.winner20 ]
                         ltac:(discriminate)))).
  intros t [ <- | [] ]. reflexivity.
Defined.

(** C5.  Aggregating the empty trade set returns the summary with
    [total_trades = 0] and every count, ratio and average equal to 0. *)
Theorem metrics_of_no_trades :
  Engine.calculate_metrics []
  = {| total_trades := 0; winners := 0; losers := 0; win_rate := 0;
       total_pips := 0; avg_pips := 0; avg_win_pips := 0;
       avg_loss_pips := 0; profit_factor := 0; avg_bars_in_trade := 0 |}.
Proof. reflexivity. Qed.

(** C10.  The win flag of every simulated trade is true exactly when its
    signed pip result is strictly positive, so a trade with zero pips is a
    loser; and for every trade set the metrics satisfy
    [winners + losers = total_trades]. *)
Theorem win_flag_partition :
  (forall df s t, Engine.execute_trade df s = inr t ->
                  (win t = true <-> 0 < pips t))
  /\ (forall df s t, Engine.execute_trade df s = inr t ->
                     pips t == 0 -> win t = false)
  /\ (forall trades,
        (winners (Engine.calculate_metrics trades)
         + losers (Engine.calculate_metrics trades)
         = total_trades (Engine.calculate_metrics trades))%Z).
Proof.
  split; [ | split ].
  - intros df s t H. apply execute_trade_inv in H as (_ & _ & Hw & _).
    rewrite Hw. apply Qltb_iff.
  - intros df s t H H0. apply execute_trade_inv in H as (_ & _ & Hw & _).
    rewrite Hw. destruct (pips t >? 0) eqn:E; [ | reflexivity ].
    apply Qltb_iff in E. rewrite H0 in E.
    exfalso. exact (Qlt_irrefl _ E).
  - intros trades. unfold Engine.calculate_metrics.
    destruct (len trades =? 0)%Z; [ reflexivity | ].
    cbn [winners losers total_trades]. apply winners_losers_total.
Qed.

(** A Long entry at 1.0400 on bars that stay at 1.0400: the time stop
    closes it at the entry price, with zero pips, and it counts as a
    loser. *)
Lemma win_flag_partition_witness :
  exists t,
    Engine.execute_trade Sample.still_df (Sample.long_entry 0) = inr t
    /\ exit_reason t = TIME_STOP
    /\ pips t == 0
    /\ win t = false.
Proof.
  eexists. split; [ vm_compute; reflexivity | ].
  split; [ reflexivity | ].
  split; [ vm_compute; reflexivity | ].
  apply (proj1 (proj2 win_flag_partition) Sample.still_df
           (Sample.long_entry 0)).
  - vm_compute. reflexivity.
  - vm_compute. reflexivity.
Defined.

(** ** Indicator frame *)

Section Frame.

Import Strategy.

Variable self : Strategy.

Lemma augment_length (ema : list Q) (slope vma pdh pdl : list (option Q))
    (bars : list Bar) :
  forall k, length (augment self ema slope vma pdh pdl k bars) = length bars.
Proof.
  induction bars as [ | b rest IH ]; intros k; cbn; [ | rewrite IH ];
    reflexivity.
Qed.

Lemma augment_nth_error (ema : list Q) (slope vma pdh pdl : list (option Q))
    (bars : list Bar) :
  forall k n row,
    nth_error (augment self ema slope vma pdh pdl k bars) n = Some row ->
    nth_error bars n = Some (bar row).
Proof.
  induction bars as [ | b rest IH ]; intros k n row H.
  - destruct n; discriminate.
  - destruct n as [ | n ]; cbn in H |- *.
    + injection H as <-. reflexivity.
    + exact (IH _ _ _ H).
Qed.

Lemma calculate_indicators_returns (df : DataFrame) :
  1 <= ema_length self ->
  exists rows, calculate_indicators self df = inr rows.
Proof.
  intros Hspan. unfold calculate_indicators, ewm_mean.
  apply Qle_bool_iff in Hspan. unfold Qltb. rewrite Hspan. cbn [negb].
  destruct (map close df); cbn; eexists; reflexivity.
Qed.

Lemma calculate_indicators_rows (df : DataFrame) (rows : list IndicatorRow) :
  calculate_indicators self df = inr rows ->
  len rows = len df
  /\ forall i row, (0 <= i)%Z -> iloc rows i = inr row ->
                   iloc df i = inr (bar row).
Proof.
  unfold calculate_indicators, bind.
  destruct (ewm_mean (ema_length self) (map close df)) as [ e | ema ];
    [ discriminate | ].
  intros H. injection H as <-. split.
  - unfold len. rewrite augment_length. reflexivity.
  - intros i row Hi Hrow. apply iloc_nth_error in Hrow; [ | exact Hi ].
    apply augment_nth_error in Hrow.
    rewrite iloc_nonneg by exact Hi. rewrite Hrow. reflexivity.
Qed.

Lemma calculate_indicators_short_span (df : DataFrame) :
  ema_length self < 1 -> calculate_indicators self df = inl ValueError.
Proof.
  intros Hspan. unfold calculate_indicators, ewm_mean.
  apply Qltb_iff in Hspan. rewrite Hspan. reflexivity.
Qed.

(** *** One bar of the detection loop *)

Lemma resolve_inv (row prev_row : IndicatorRow) (i : Z) (s : Signal) :
  resolve self row prev_row i = Some s ->
  is_london_session (name (bar row)) = true
  /\ at_key_level self row = true
  /\ volume_spike prev_row = true
  /\ ((long_conditions self row prev_row = true
       /\ s = long_signal self row i)
      \/ (long_conditions self row prev_row = false
          /\ short_conditions self row prev_row = true
          /\ s = short_signal self row i)).
Proof.
  unfold resolve.
  destruct (is_london_session (name (bar row))); [ | discriminate ].
  destruct (at_key_level self row); [ | discriminate ].
  destruct (volume_spike prev_row); [ | discriminate ].
  destruct (long_conditions self row prev_row).
  - cbn. intros H. injection H as <-.
    repeat split. left. split; reflexivity.
  - destruct (short_conditions self row prev_row); [ | discriminate ].
    cbn. intros H. injection H as <-.
    repeat split. right. repeat split.
Qed.

(** Long is tested first: its conditions decide, whatever the Short ones
    are. *)
Lemma resolve_long_first (row prev_row : IndicatorRow) (i : Z) :
  is_london_session (name (bar row)) = true ->
  at_key_level self row = true ->
  volume_spike prev_row = true ->
  long_conditions self row prev_row = true ->
  resolve self row prev_row i = Some (long_signal self row i).
Proof.
  intros H1 H2 H3 H4. unfold resolve. rewrite H1, H2, H3, H4. reflexivity.
Qed.

Lemma signal_at_inv (rows : list IndicatorRow) (i : Z) (s : Signal) :
  signal_at self rows i = inr (Some s) ->
  exists row prev_row,
    iloc rows i = inr row
    /\ iloc rows (i - 1) = inr prev_row
    /\ resolve self row prev_row i = Some s.
Proof.
  unfold signal_at, bind.
  destruct (iloc rows i) as [ e | row ]; [ discriminate | ].
  destruct (iloc rows (i - 1)) as [ e | prev_row ]; [ discriminate | ].
  intros H. injection H as H. exists row, prev_row. auto.
Qed.

Lemma signal_at_index (rows : list IndicatorRow) (i : Z) (s : Signal) :
  signal_at self rows i = inr (Some s) -> entry_index s = i.
Proof.
  intros H. apply signal_at_inv in H as (row & prev_row & _ & _ & H).
  apply resolve_inv in H as (_ & _ & _ & [ (_ & ->) | (_ & _ & ->) ]);
    reflexivity.
Qed.

(** *** The whole loop *)

Lemma detect_loop_shape (rows : list IndicatorRow) (idxs : list Z) :
  forall acc out,
    NoDup idxs ->
    detect_loop self rows idxs acc = inr out ->
    exists new,
      out = acc ++ new
      /\ NoDup (map entry_index new)
      /\ (forall s, In s new ->
            In (entry_index s) idxs
            /\ signal_at self rows (entry_index s) = inr (Some s))
      /\ (forall i s, In i idxs -> signal_at self rows i = inr (Some s) ->
            In s new).
Proof.
  induction idxs as [ | i rest IH ]; intros acc out Hnd H.
  - cbn in H. injection H as <-. exists []. rewrite app_nil_r.
    repeat split; try constructor; intros; contradiction.
  - cbn [detect_loop] in H. unfold bind in H.
    destruct (signal_at self rows i) as [ e | emitted ] eqn:Hat;
      [ discriminate | ].
    inversion Hnd as [ | ? ? Hnotin Hnd' ]; subst.
    apply IH in H as (new & -> & Hnew & Hfrom & Hto); [ | exact Hnd' ].
    destruct emitted as [ s | ].
    + exists (s :: new). rewrite <- app_assoc. cbn [app].
      pose proof (signal_at_index rows i s Hat) as Hidx.
      split; [ reflexivity | ]. split; [ | split ].
      * cbn [map]. constructor; [ | exact Hnew ].
        rewrite Hidx. intros Hin. apply in_map_iff in Hin as (u & Hu & Hin).
        apply Hfrom in Hin as (Hin & _). rewrite Hu in Hin.
        exact (Hnotin Hin).
      * intros u [ <- | Hu ].
        -- split; [ left; symmetry; exact Hidx | ].
           rewrite Hidx. exact Hat.
        -- destruct (Hfrom u Hu) as (Hin & Hsig).
           split; [ right; exact Hin | exact Hsig ].
      * intros k u [ <- | Hk ] Hu.
        -- left. congruence.
        -- right. exact (Hto k u Hk Hu).
    + exists new. split; [ reflexivity | ]. split; [ exact Hnew | split ].
      * intros u Hu. destruct (Hfrom u Hu) as (Hin & Hsig).
        split; [ right; exact Hin | exact Hsig ].
      * intros k u [ <- | Hk ] Hu; [ congruence | ].
        exact (Hto k u Hk Hu).
Qed.

Lemma detect_loop_returns (rows : list IndicatorRow) (idxs : list Z) :
  forall acc,
    (forall i, In i idxs -> (1 <= i < len rows)%Z) ->
    exists out, detect_loop self rows idxs acc = inr out.
Proof.
  induction idxs as [ | i rest IH ]; intros acc Hin.
  - exists acc. reflexivity.
  - cbn [detect_loop]. unfold signal_at.
    destruct (iloc_in_range rows i) as (row & ->);
      [ specialize (Hin i (or_introl eq_refl)); lia | ].
    destruct (iloc_in_range rows (i - 1)) as (prev_row & Hprev);
      [ specialize (Hin i (or_introl eq_refl)); lia | ].
    cbn. rewrite Hprev. cbn.
    apply IH. intros k Hk. apply Hin. right. exact Hk.
Qed.

End Frame.

Lemma NoDup_map_filter_le1 (l : list Signal) (i : Z) :
  NoDup (map entry_index l) ->
  (length (filter (fun s => (entry_index s =? i)%Z) l) <= 1)%nat.
Proof.
  induction l as [ | s l IH ]; intros Hnd; cbn; [ lia | ].
  inversion Hnd as [ | ? ? Hnotin Hnd' ]; subst.
  destruct (Z.eqb_spec (entry_index s) i) as [ Heq | Hne ].
  - replace (filter (fun u => (entry_index u =? i)%Z) l) with (@nil Signal);
      [ cbn; lia | ].
    symmetry.
    rewrite (filter_ext_in (fun u => (entry_index u =? i)%Z) (fun _ => false)).
    + apply filter_false.
    + intros u Hu. apply Z.eqb_neq. intros Hu'. apply Hnotin.
      rewrite Heq, <- Hu'. apply in_map. exact Hu.
  - apply IH. exact Hnd'.
Qed.

(** Signal detection returns for every frame once the EMA span is
    admissible. *)
Lemma detect_signals_returns (self : Strategy.Strategy) (df : DataFrame) :
  1 <= Strategy.ema_length self ->
  exists signals, Strategy.detect_signals self df = inr signals.
Proof.
  intros Hspan. unfold Strategy.detect_signals.
  destruct (calculate_indicators_returns self df Hspan) as (rows & ->).
  cbn. apply detect_loop_returns.
  intros i Hi. apply py_range_In in Hi. lia.
Qed.

Lemma detect_signals_short_span (self : Strategy.Strategy) (df : DataFrame) :
  Strategy.ema_length self < 1 ->
  Strategy.detect_signals self df = inl ValueError.
Proof.
  intros Hspan. unfold Strategy.detect_signals.
  rewrite calculate_indicators_short_span by exact Hspan. reflexivity.
Qed.

(** ** Configuration and input checks *)

(** C6 as stated fails: a configuration with volume multiplier 0 and a
    stop distance of -15 pips is accepted by the constructor, and signal
    detection then runs with it; on [Sample.long_df] it emits a Long signal
    whose stop lies above its entry. *)
Lemma invalid_configuration_accepted :
  exists self s,
    Strategy.init 0 8 5 20 (-15) 20 30 = inr self
    /\ Strategy.volume_multiplier self <= 0
    /\ Strategy.stop_loss_pips self <= 0
    /\ Strategy.detect_signals self Sample.long_df = inr [ s ]
    /\ direction s = LONG
    /\ entry_price s < stop_loss s.
Proof.
  eexists. eexists.
  split; [ reflexivity | ].
  split; [ vm_compute; discriminate | ].
  split; [ vm_compute; discriminate | ].
  split; [ vm_compute; reflexivity | ].
  split; [ reflexivity | ].
  vm_compute. reflexivity.
Qed.

(** C6, amended.  The constructor validates nothing: whatever the volume
    multiplier, the pip distances and the EMA length are, it raises no
    error and returns the strategy holding exactly these values, with the
    pip size 0.0001. *)
Theorem init_accepts_every_configuration
    (volume_multiplier min_wick_pips min_body_pips ema_length
     stop_loss_pips tp1_pips tp2_pips : Q) :
  Strategy.init volume_multiplier min_wick_pips min_body_pips ema_length
    stop_loss_pips tp1_pips tp2_pips
  = inr {| Strategy.volume_multiplier := volume_multiplier;
           Strategy.min_wick_pips := min_wick_pips;
           Strategy.min_body_pips := min_body_pips;
           Strategy.ema_length := ema_length;
           Strategy.stop_loss_pips := stop_loss_pips;
           Strategy.tp1_pips := tp1_pips;
           Strategy.tp2_pips := tp2_pips;
           Strategy.pip_value := 0.0001 |}.
Proof. reflexivity. Qed.

(** C7 as stated fails: on a frame of three rows, and on the empty frame,
    signal detection raises nothing and returns the empty list. *)
Lemma short_input_accepted :
  (len Sample.wide_df < 100)%Z
  /\ Strategy.detect_signals Strategy.default Sample.wide_df = inr []
  /\ Strategy.detect_signals Strategy.default [] = inr [].
Proof.
  split; [ reflexivity | ]. split; vm_compute; reflexivity.
Qed.

(** C7, amended.  For every frame of at most 100 rows (so none at a scanned
    position, the scan starting at position 100), and every strategy whose
    EMA length is at least 1, signal detection raises no error and returns
    the empty signal list. *)
Theorem short_input_yields_no_signal (self : Strategy.Strategy)
    (df : DataFrame) :
  1 <= Strategy.ema_length self ->
  (len df <= 100)%Z ->
  Strategy.detect_signals self df = inr [].
Proof.
  intros Hspan Hlen.
  destruct (calculate_indicators_returns self df Hspan) as (rows & Hrows).
  unfold Strategy.detect_signals. rewrite Hrows. cbn [bind].
  apply calculate_indicators_rows in Hrows as (Hrl & _).
  unfold py_range. replace (Z.to_nat (len rows - 100)) with 0%nat by lia.
  reflexivity.
Qed.

Lemma short_input_yields_no_signal_witness :
  Strategy.detect_signals Strategy.default Sample.wide_df = inr [].
Proof.
  apply (short_input_yields_no_signal Strategy.default Sample.wide_df).
  - vm_compute. discriminate.
  - vm_compute. discriminate.
Defined.

(** ** Signal resolution and price levels *)

Lemma detect_signals_shape (self : Strategy.Strategy) (df : DataFrame)
    (signals : list Signal) :
  Strategy.detect_signals self df = inr signals ->
  exists rows,
    Strategy.calculate_indicators self df = inr rows
    /\ NoDup (map entry_index signals)
    /\ (forall s, In s signals ->
          (100 <= entry_index s < len df)%Z
          /\ Strategy.signal_at self rows (entry_index s) = inr (Some s))
    /\ (forall i s, (100 <= i < len df)%Z ->
          Strategy.signal_at self rows i = inr (Some s) -> In s signals).
Proof.
  unfold Strategy.detect_signals. unfold bind at 1.
  destruct (Strategy.calculate_indicators self df) as [ e | rows ] eqn:Hrows;
    [ discriminate | ].
  intros H. exists rows. split; [ reflexivity | ].
  apply calculate_indicators_rows in Hrows as (Hlen & _).
  apply detect_loop_shape in H as (new & Hout & Hnd & Hfrom & Hto);
    [ | apply range_from_NoDup ].
  cbn [app] in Hout. subst new.
  split; [ exact Hnd | ]. split.
  - intros s Hs. destruct (Hfrom s Hs) as (Hin & Hsig).
    apply py_range_In in Hin. rewrite Hlen in Hin. auto.
  - intros i s Hi Hsig. apply (Hto i); [ | exact Hsig ].
    apply py_range_In. rewrite Hlen. exact Hi.
Qed.

(** C8.  In the list returned by signal detection at most one signal
    carries any given bar position; and on a scanned bar that passes the
    session, location and volume gates and satisfies the Long conditions
    (rejection, confirmation, body, trend alignment), the signal emitted for
    that bar is the Long one, whatever the Short conditions are: it is in
    the list and it is the only signal of that bar. *)
Theorem one_signal_per_bar_long_first (self : Strategy.Strategy)
    (df : DataFrame) (signals : list Signal) :
  Strategy.detect_signals self df = inr signals ->
  (forall i,
     (length (filter (fun s => (entry_index s =? i)%Z) signals) <= 1)%nat)
  /\ (forall rows i row prev_row,
        Strategy.calculate_indicators self df = inr rows ->
        (100 <= i < len df)%Z ->
        iloc rows i = inr row ->
        iloc rows (i - 1) = inr prev_row ->
        Strategy.is_london_session (name (Strategy.bar row)) = true ->
        Strategy.at_key_level self row = true ->
        Strategy.volume_spike prev_row = true ->
        Strategy.long_conditions self row prev_row = true ->
        In (Strategy.long_signal self row i) signals
        /\ forall s, In s signals -> entry_index s = i ->
                     s = Strategy.long_signal self row i).
Proof.
  intros H.
  apply detect_signals_shape in H as (rows0 & Hrows0 & Hnd & Hfrom & Hto).
  split.
  - intros i. apply NoDup_map_filter_le1. exact Hnd.
  - intros rows i row prev_row Hrows Hi Hrow Hprev Hsess Hkey Hvol Hlong.
    assert (rows0 = rows) as -> by congruence.
    assert (Strategy.signal_at self rows i
            = inr (Some (Strategy.long_signal self row i))) as Hsig.
    { unfold Strategy.signal_at. rewrite Hrow. cbn [bind].
      rewrite Hprev. cbn [bind].
      rewrite resolve_long_first by assumption. reflexivity. }
    split.
    + apply (Hto i); assumption.
    + intros s Hs Hidx. destruct (Hfrom s Hs) as (_ & Hs').
      rewrite Hidx in Hs'. congruence.
Qed.

Lemma one_signal_per_bar_long_first_witness :
  exists signals,
    Strategy.detect_signals Strategy.default Sample.long_df = inr signals
    /\ forall i,
         (length (filter (fun s => (entry_index s =? i)%Z) signals) <= 1)%nat.
Proof.
  eexists. split; [ vm_compute; reflexivity | ].
  refine (proj1 (one_signal_per_bar_long_first Strategy.default
                   Sample.long_df _ _)).
  vm_compute. reflexivity.
Defined.

(** The mirrored frame produces one Short signal, at bar 100. *)
Example short_df_signal :
  match Strategy.detect_signals Strategy.default Sample.short_df with
  | inr [ s ] => (direction s, entry_index s) = (SHORT, 100%Z)
  | _ => False
  end.
Proof. vm_compute. reflexivity. Qed.

(** C9.  Every emitted signal enters at the close of the bar it points
    to, with the stop and the two targets at the configured pip distances
    from that close: below, above, above for Long and above, below, below
    for Short.  In particular, with pip size 0.0001 and distances of 15, 20
    and 30 pips, a Long signal entering at 1.0400 has its stop at 1.0385 and
    its targets at 1.0420 and 1.0430. *)
Theorem signal_price_levels (self : Strategy.Strategy) (df : DataFrame)
    (signals : list Signal) (s : Signal) :
  Strategy.detect_signals self df = inr signals ->
  In s signals ->
  (exists b,
     iloc df (entry_index s) = inr b
     /\ entry_price s = close b
     /\ match direction s with
        | LONG =>
            stop_loss s
            = close b - Strategy.pips_to_price self (Strategy.stop_loss_pips self)
            /\ tp1 s
               = close b + Strategy.pips_to_price self (Strategy.tp1_pips self)
            /\ tp2 s
               = close b + Strategy.pips_to_price self (Strategy.tp2_pips self)
        | SHORT =>
            stop_loss s
            = close b + Strategy.pips_to_price self (Strategy.stop_loss_pips self)
            /\ tp1 s
               = close b - Strategy.pips_to_price self (Strategy.tp1_pips self)
            /\ tp2 s
               = close b - Strategy.pips_to_price self (Strategy.tp2_pips self)
        end)
  /\ (direction s = LONG ->
      entry_price s == 1.0400 ->
      Strategy.pip_value self == 0.0001 ->
      Strategy.stop_loss_pips self == 15 ->
      Strategy.tp1_pips self == 20 ->
      Strategy.tp2_pips self == 30 ->
      stop_loss s == 1.0385 /\ tp1 s == 1.0420 /\ tp2 s == 1.0430).
Proof.
  intros H Hs.
  apply detect_signals_shape in H as (rows & Hrows & _ & Hfrom & _).
  destruct (Hfrom s Hs) as (Hrange & Hsig).
  apply signal_at_inv in Hsig as (row & prev_row & Hrow & _ & Hres).
  apply calculate_indicators_rows in Hrows as (_ & Hbars).
  apply Hbars in Hrow; [ | lia ].
  apply resolve_inv in Hres as (_ & _ & _ & [ (_ & ->) | (_ & _ & ->) ]).
  - split.
    + exists (Strategy.bar row). cbn. auto.
    + cbn. unfold Strategy.pips_to_price.
      intros _ Hc Hpip Hsl Ht1 Ht2. rewrite Hc, Hpip, Hsl, Ht1, Ht2.
      repeat split; reflexivity.
  - split.
    + exists (Strategy.bar row). cbn. auto.
    + cbn. discriminate.
Qed.

(** On [Sample.long_df] the detector with the default parameters emits
    exactly the Long signal of the scenario. *)
Lemma signal_price_levels_witness :
  exists s,
    Strategy.detect_signals Strategy.default Sample.long_df = inr [ s ]
    /\ direction s = LONG
    /\ entry_price s == 1.0400
    /\ stop_loss s == 1.0385 /\ tp1 s == 1.0420 /\ tp2 s == 1.0430.
Proof.
  eexists. split; [ vm_compute; reflexivity | ].
  split; [ reflexivity | ].
  split; [ reflexivity | ].
  refine (proj2 (signal_price_levels Strategy.default Sample.long_df
                   _ _ _ _) _ _ _ _ _ _).
  - vm_compute. reflexivity.
  - left. reflexivity.
  - reflexivity.
  - reflexivity.
  - reflexivity.
  - reflexivity.
  - reflexivity.
  - reflexivity.
Defined.

(** * Further properties of the code *)

(** ** Pip conversion and the round-number test *)




Lemma Qfloor_ge_iff (x : Q) (a : Z) : inject_Z a <= x <-> (a <= Qfloor x)%Z.
Proof.
  split; intros H.
  - rewrite <- (Qfloor_Z a). apply Qfloor_resp_le. exact H.
  - apply Qle_trans with (inject_Z (Qfloor x)).
    + rewrite <- Zle_Qle. exact H.
    + apply Qfloor_le.
Qed.





(** 1.04998 is near 1.05000 and 1.04900 is not; 5.9 pips above a level
    passes, 5.9 pips below does not. *)
Example near_1_05000 :
  Strategy.is_near_round_number Strategy.default 1.04998 5 = true
  /\ Strategy.is_near_round_number Strategy.default 1.04900 5 = false
  /\ Strategy.is_near_round_number Strategy.default 1.05059 5 = true
  /\ Strategy.is_near_round_number Strategy.default 1.04941 5 = false.
Proof. vm_compute. auto. Qed.

(** ** The indicator frame, column by column *)

Section Columns.

Import Strategy.

Variable self : Strategy.

Lemma augment_nth_row (ema : list Q) (slope vma pdh pdl : list (option Q))
    (bars : list Bar) :
  forall k n row,
    nth_error (augment self ema slope vma pdh pdl k bars) n = Some row ->
    exists b,
      nth_error bars n = Some b
      /\ row = indicator_row self ema slope vma pdh pdl (k + n) b.
Proof.
  induction bars as [ | b rest IH ]; intros k n row H.
  - destruct n; discriminate.
  - destruct n as [ | n ]; cbn in H.
    + injection H as <-. exists b. split; [ reflexivity | ].
      replace (k + 0)%nat with k by lia. reflexivity.
    + destruct (IH _ _ _ H) as (b' & Hb & ->). exists b'.
      split; [ exact Hb | ].
      replace (k + S n)%nat with (S k + n)%nat by lia. reflexivity.
Qed.

Lemma augment_map_bar (ema : list Q) (slope vma pdh pdl : list (option Q))
    (bars : list Bar) :
  forall k, map bar (augment self ema slope vma pdh pdl k bars) = bars.
Proof.
  induction bars as [ | b rest IH ]; intros k; cbn; [ | rewrite IH ];
    reflexivity.
Qed.

Lemma ewm_mean_inv (span : Q) (xs ema : list Q) :
  ewm_mean span xs = inr ema ->
  1 <= span
  /\ ema = match xs with
           | [] => []
           | x0 :: rest => x0 :: ewm_from (2 / (span + 1)) x0 rest
           end.
Proof.
  unfold ewm_mean. destruct (span <? 1) eqn:E; [ discriminate | ].
  unfold Qltb in E. apply negb_false_iff in E. apply Qle_bool_iff in E.
  destruct xs; intros H; injection H as <-; auto.
Qed.

Lemma calculate_indicators_inv (df : DataFrame) (rows : list IndicatorRow) :
  calculate_indicators self df = inr rows ->
  exists ema,
    ewm_mean (ema_length self) (map close df) = inr ema
    /\ rows = augment self ema (diff ema) (rolling_mean 20 (map volume df))
                (shift_rolling Qmax 288 (map high df))
                (shift_rolling Qmin 288 (map low df)) 0 df.
Proof.
  unfold calculate_indicators, bind.
  destruct (ewm_mean (ema_length self) (map close df)) as [ e | ema ];
    [ discriminate | ].
  intros H. injection H as <-. exists ema. auto.
Qed.

(** A row of the frame, by position. *)
Lemma calculate_indicators_row (df : DataFrame) (rows : list IndicatorRow)
    (i : nat) (row : IndicatorRow) :
  calculate_indicators self df = inr rows ->
  nth_error rows i = Some row ->
  exists ema b,
    ewm_mean (ema_length self) (map close df) = inr ema
    /\ nth_error df i = Some b
    /\ row = indicator_row self ema (diff ema)
               (rolling_mean 20 (map volume df))
               (shift_rolling Qmax 288 (map high df))
               (shift_rolling Qmin 288 (map low df)) i b.
Proof.
  intros H Hrow. apply calculate_indicators_inv in H as (ema & Hema & ->).
  apply augment_nth_row in Hrow as (b & Hb & ->).
  exists ema, b. auto.
Qed.

Lemma alpha_range (span : Q) :
  1 <= span -> 0 < 2 / (span + 1) /\ 2 / (span + 1) <= 1.
Proof.
  intros H. assert (0 < span + 1) as Hpos by lra. split.
  - apply Qlt_shift_div_l; [ exact Hpos | lra ].
  - apply Qle_shift_div_r; [ exact Hpos | lra ].
Qed.

Lemma alpha_below_one (span : Q) : 1 < span -> 2 / (span + 1) < 1.
Proof.
  intros H. apply Qlt_shift_div_r; lra.
Qed.

Lemma ewm_from_length (alpha : Q) (xs : list Q) :
  forall prev, length (ewm_from alpha prev xs) = length xs.
Proof.
  induction xs as [ | x rest IH ]; intros prev; cbn; [ | rewrite IH ];
    reflexivity.
Qed.

Lemma convex_step (alpha lo hi prev x : Q) :
  0 <= alpha <= 1 -> lo <= prev <= hi -> lo <= x <= hi ->
  lo <= (1 - alpha) * prev + alpha * x <= hi.
Proof.
  intros Ha Hp Hx.
  assert (0 <= (1 - alpha) * (prev - lo)) by (apply Qmult_le_0_compat; lra).
  assert (0 <= alpha * (x - lo)) by (apply Qmult_le_0_compat; lra).
  assert (0 <= (1 - alpha) * (hi - prev)) by (apply Qmult_le_0_compat; lra).
  assert (0 <= alpha * (hi - x)) by (apply Qmult_le_0_compat; lra).
  split; nra.
Qed.

Lemma ewm_from_bounds (alpha lo hi : Q) (xs : list Q) :
  0 <= alpha <= 1 ->
  forall prev,
    lo <= prev <= hi ->
    Forall (fun x => lo <= x <= hi) xs ->
    Forall (fun y => lo <= y <= hi) (ewm_from alpha prev xs).
Proof.
  intros Ha. induction xs as [ | x rest IH ]; intros prev Hp Hxs; cbn.
  - constructor.
  - inversion Hxs as [ | ? ? Hx Hrest ]; subst.
    pose proof (convex_step alpha lo hi prev x Ha Hp Hx) as Hy.
    constructor; [ exact Hy | ]. apply IH; assumption.
Qed.

Lemma ewm_mean_length (span : Q) (xs ema : list Q) :
  ewm_mean span xs = inr ema -> length ema = length xs.
Proof.
  intros H. apply ewm_mean_inv in H as (_ & ->).
  destruct xs; cbn; [ | rewrite ewm_from_length ]; reflexivity.
Qed.

Lemma ewm_mean_bounds (span lo hi : Q) (xs ema : list Q) :
  ewm_mean span xs = inr ema ->
  Forall (fun x => lo <= x <= hi) xs ->
  Forall (fun y => lo <= y <= hi) ema.
Proof.
  intros H Hxs. apply ewm_mean_inv in H as (Hspan & ->).
  destruct xs as [ | x0 rest ]; [ constructor | ].
  inversion Hxs as [ | ? ? Hx Hrest ]; subst.
  constructor; [ exact Hx | ].
  apply ewm_from_bounds; try assumption.
  destruct (alpha_range span Hspan). split; lra.
Qed.

End Columns.

(** X3.  Indicator computation raises [ValueError] when the EMA length is
    below 1 and otherwise returns a frame with the rows of the input, in
    order and with their price columns unchanged. *)
Theorem indicators_keep_the_frame (self : Strategy.Strategy)
    (df : DataFrame) :
  (Strategy.ema_length self < 1 ->
   Strategy.calculate_indicators self df = inl ValueError)
  /\ (1 <= Strategy.ema_length self ->
      exists rows,
        Strategy.calculate_indicators self df = inr rows
        /\ map Strategy.bar rows = df).
Proof.
  split.
  - apply calculate_indicators_short_span.
  - intros Hspan.
    destruct (calculate_indicators_returns self df Hspan) as (rows & Hrows).
    exists rows. split; [ exact Hrows | ].
    apply calculate_indicators_inv in Hrows as (ema & _ & ->).
    apply augment_map_bar.
Qed.

Lemma indicators_keep_the_frame_witness :
  exists rows,
    Strategy.calculate_indicators Strategy.default Sample.wide_df = inr rows
    /\ map Strategy.bar rows = Sample.wide_df.
Proof.
  apply (proj2 (indicators_keep_the_frame Strategy.default Sample.wide_df)).
  vm_compute. discriminate.
Defined.

(** X4.  In every row of the indicator frame the body is non-negative
    and the pip columns are the price columns divided by the pip size; when
    the bar is well formed (its low is at most its open and close, which are
    at most its high) both wicks are non-negative and body and wicks add up
    to the bar's range. *)
Theorem candle_geometry (self : Strategy.Strategy) (df : DataFrame)
    (rows : list Strategy.IndicatorRow) (row : Strategy.IndicatorRow) :
  Strategy.calculate_indicators self df = inr rows ->
  In row rows ->
  0 <= Strategy.body row
  /\ Strategy.body_pips row = Strategy.body row / Strategy.pip_value self
  /\ Strategy.upper_wick_pips row
     = Strategy.upper_wick row / Strategy.pip_value self
  /\ Strategy.lower_wick_pips row
     = Strategy.lower_wick row / Strategy.pip_value self
  /\ (low (Strategy.bar row) <= open (Strategy.bar row) ->
      low (Strategy.bar row) <= close (Strategy.bar row) ->
      open (Strategy.bar row) <= high (Strategy.bar row) ->
      close (Strategy.bar row) <= high (Strategy.bar row) ->
      0 <= Strategy.upper_wick row
      /\ 0 <= Strategy.lower_wick row
      /\ Strategy.body row + Strategy.upper_wick row
         + Strategy.lower_wick row
         == high (Strategy.bar row) - low (Strategy.bar row)).
Proof.
  intros H Hin. apply In_nth_error in Hin as (i & Hi).
  destruct (calculate_indicators_row self df rows i row H Hi)
    as (ema & b & _ & _ & ->).
  unfold Strategy.indicator_row. cbv zeta.
  cbn [Strategy.body Strategy.upper_wick Strategy.lower_wick
       Strategy.body_pips Strategy.upper_wick_pips Strategy.lower_wick_pips
       Strategy.bar].
  split; [ apply Qabs_nonneg | ].
  repeat (split; [ reflexivity | ]).
  intros Hlo Hlc Hoh Hch.
  unfold Strategy.Qmax, Strategy.Qmin.
  destruct (open b <=? close b) eqn:E.
  - apply Qle_bool_iff in E.
    rewrite (Qabs_pos (close b - open b)) by lra.
    repeat split; lra.
  - apply Qleb_false_iff in E.
    rewrite (Qabs_neg (close b - open b)) by lra.
    repeat split; lra.
Qed.

Lemma candle_geometry_witness :
  exists rows row,
    Strategy.calculate_indicators Strategy.default Sample.wide_df = inr rows
    /\ In row rows
    /\ Strategy.bar row = Sample.wide_bar
    /\ 0 <= Strategy.body row.
Proof.
  eexists. eexists.
  split; [ vm_compute; reflexivity | ].
  split; [ right; right; left; reflexivity | ].
  split; [ reflexivity | ].
  refine (proj1 (candle_geometry Strategy.default Sample.wide_df _ _ _ _)).
  - vm_compute. reflexivity.
  - right. right. left. reflexivity.
Defined.

(** X5.  With an EMA length of at least 1 the trend average never leaves
    the range of the closes: if every close of the frame lies between [lo]
    and [hi], so does [ema_20] in every row. *)
Theorem ema_within_close_range (self : Strategy.Strategy) (df : DataFrame)
    (rows : list Strategy.IndicatorRow) (lo hi : Q) :
  Strategy.calculate_indicators self df = inr rows ->
  (forall b, In b df -> lo <= close b <= hi) ->
  forall row, In row rows -> lo <= Strategy.ema_20 row <= hi.
Proof.
  intros H Hrange row Hin. apply In_nth_error in Hin as (i & Hi).
  destruct (calculate_indicators_row self df rows i row H Hi)
    as (ema & b & Hema & Hb & ->).
  unfold Strategy.indicator_row. cbv zeta. cbn [Strategy.ema_20].
  assert (Forall (fun y => lo <= y <= hi) ema) as Hall.
  { apply (ewm_mean_bounds (Strategy.ema_length self) lo hi
             (map close df) ema Hema).
    apply Forall_forall. intros x Hx.
    apply in_map_iff in Hx as (b' & <- & Hb'). apply Hrange. exact Hb'. }
  rewrite Forall_forall in Hall. apply Hall. apply nth_In.
  rewrite (ewm_mean_length _ _ _ Hema), length_map.
  apply nth_error_Some. congruence.
Qed.

Lemma ema_within_close_range_witness :
  exists rows,
    Strategy.calculate_indicators Strategy.default Sample.wide_df = inr rows
    /\ forall row, In row rows -> 1.0400 <= Strategy.ema_20 row <= 1.0401.
Proof.
  eexists. split; [ vm_compute; reflexivity | ].
  apply (ema_within_close_range Strategy.default Sample.wide_df).
  - vm_compute. reflexivity.
  - intros b [ <- | [ <- | [ <- | [] ] ] ]; vm_compute;
      split; discriminate.
Defined.

(** *** Trend average and slope *)

Lemma Qltb_false_iff (x y : Q) : (x <? y) = false <-> y <= x.
Proof.
  unfold Qltb. rewrite negb_false_iff. apply Qle_bool_iff.
Qed.

Lemma ewm_from_step (alpha : Q) (xs : list Q) :
  forall p n x,
    nth_error xs n = Some x ->
    exists y',
      nth_error (p :: Strategy.ewm_from alpha p xs) n = Some y'
      /\ nth_error (p :: Strategy.ewm_from alpha p xs) (S n)
         = Some ((1 - alpha) * y' + alpha * x).
Proof.
  induction xs as [ | x0 rest IH ]; intros p n x H.
  - destruct n; discriminate.
  - destruct n as [ | n ].
    + injection H as <-. exists p. split; reflexivity.
    + cbn in H. destruct (IH ((1 - alpha) * p + alpha * x0) n x H)
        as (y' & Hy' & Hy).
      exists y'. split; [ exact Hy' | exact Hy ].
Qed.

Lemma diff_from_nth (ys : list Q) :
  forall p n y y',
    nth_error (p :: ys) n = Some y' ->
    nth_error ys n = Some y ->
    nth_error (Strategy.diff_from p ys) n = Some (Some (y - y')).
Proof.
  induction ys as [ | y0 rest IH ]; intros p n y y' Hp Hy.
  - destruct n; discriminate.
  - destruct n as [ | n ].
    + injection Hp as <-. injection Hy as <-. reflexivity.
    + cbn in Hp, Hy |- *. apply IH; assumption.
Qed.

Lemma slope_tests (a y' x : Q) :
  0 < a < 1 ->
  (0 <? (1 - a) * y' + a * x - y') = ((1 - a) * y' + a * x <? x)
  /\ ((1 - a) * y' + a * x - y' <? 0) = (x <? (1 - a) * y' + a * x).
Proof.
  intros Ha.
  destruct (Qlt_le_dec y' x) as [ Hlt | Hle ].
  - assert (0 < a * (x - y')) by (apply Qmult_lt_0_compat; lra).
    assert (0 < (1 - a) * (x - y')) by (apply Qmult_lt_0_compat; lra).
    split.
    + transitivity true; [ | symmetry ]; apply Qltb_iff; nra.
    + transitivity false; [ | symmetry ]; apply Qltb_false_iff; nra.
  - assert (0 <= a * (y' - x)) by (apply Qmult_le_0_compat; lra).
    assert (0 <= (1 - a) * (y' - x)) by (apply Qmult_le_0_compat; lra).
    split.
    + transitivity false; [ | symmetry ]; apply Qltb_false_iff; nra.
    + destruct (Qeq_dec y' x) as [ Heq | Hne ].
      * transitivity false; [ | symmetry ]; apply Qltb_false_iff;
          rewrite Heq; nra.
      * assert (x < y') as Hlt
          by (apply Qle_lt_or_eq in Hle as [ Hlt | Heq ];
              [ exact Hlt | exfalso; apply Hne; symmetry; exact Heq ]).
        assert (0 < a * (y' - x)) by (apply Qmult_lt_0_compat; lra).
        assert (0 < (1 - a) * (y' - x)) by (apply Qmult_lt_0_compat; lra).
        transitivity true; [ | symmetry ]; apply Qltb_iff; nra.
Qed.

(** The trend columns of the frame, row by row. *)
Lemma ema_rows (self : Strategy.Strategy) (df : DataFrame)
    (rows : list Strategy.IndicatorRow) :
  Strategy.calculate_indicators self df = inr rows ->
  (forall row, nth_error rows 0 = Some row ->
     Strategy.ema_20 row = close (Strategy.bar row)
     /\ Strategy.ema_slope row = None)
  /\ (forall i row prev,
        nth_error rows (S i) = Some row ->
        nth_error rows i = Some prev ->
        Strategy.ema_20 row
        = (1 - 2 / (Strategy.ema_length self + 1)) * Strategy.ema_20 prev
          + 2 / (Strategy.ema_length self + 1) * close (Strategy.bar row)
        /\ Strategy.ema_slope row
           = Some (Strategy.ema_20 row - Strategy.ema_20 prev)
        /\ (1 < Strategy.ema_length self ->
            Strategy.ema_bullish row
            = Strategy.slope_pos (Strategy.ema_slope row)
            /\ Strategy.ema_bearish row
               = Strategy.slope_neg (Strategy.ema_slope row))).
Proof.
  intros H. split.
  - intros row Hrow.
    destruct (calculate_indicators_row self df rows 0 row H Hrow)
      as (ema & b & Hema & Hb & ->).
    apply ewm_mean_inv in Hema as (_ & ->).
    destruct df as [ | b0 rest ]; [ discriminate | ].
    injection Hb as <-. split; reflexivity.
  - intros i row prev Hrow Hprev.
    destruct (calculate_indicators_row self df rows (S i) row H Hrow)
      as (ema & b & Hema & Hb & ->).
    destruct (calculate_indicators_row self df rows i prev H Hprev)
      as (ema' & b' & Hema' & Hb' & ->).
    assert (ema' = ema) as -> by congruence.
    apply ewm_mean_inv in Hema as (Hspan & ->).
    destruct df as [ | b0 rest ]; [ discriminate | ].
    cbn [map] in *.
    set (a := 2 / (Strategy.ema_length self + 1)) in *.
    assert (nth_error (map close rest) i = Some (close b)) as Hx
      by (cbn in Hb; rewrite nth_error_map, Hb; reflexivity).
    destruct (ewm_from_step a (map close rest) (close b0) i (close b) Hx)
      as (y' & Hy' & Hy).
    pose proof (diff_from_nth _ _ _ _ _ Hy' Hy) as Hd.
    unfold Strategy.indicator_row. cbv zeta.
    unfold Strategy.ema_bullish, Strategy.ema_bearish.
    cbn [Strategy.ema_20 Strategy.ema_slope Strategy.bar].
    rewrite (nth_error_nth _ _ 0 Hy), (nth_error_nth _ _ 0 Hy').
    assert (nth (S i)
              (Strategy.diff
                 (close b0 :: Strategy.ewm_from a (close b0)
                                (map close rest))) None
            = Some ((1 - a) * y' + a * close b - y')) as ->
      by (apply nth_error_nth; exact Hd).
    split; [ reflexivity | ]. split; [ reflexivity | ].
    intros Hlong. cbn [Strategy.slope_pos Strategy.slope_neg].
    assert (0 < a < 1) as Ha.
    { split; [ apply (alpha_range _ Hspan) | ].
      apply alpha_below_one. exact Hlong. }
    destruct (slope_tests a y' (close b) Ha) as (Hpos & Hneg).
    rewrite Hpos, Hneg. split; apply andb_diag.
Qed.

(** X6.  In the first row of the indicator frame the trend average is the
    close and the slope is undefined.  In every later row the trend average
    is [(1 - a) * previous average + a * close] with [a = 2 / (length + 1)]
    and the slope is its difference to the previous row; and when the EMA
    length exceeds 1 the slope is positive exactly when the close is above
    the trend average (negative exactly when below), so each EMA-alignment
    test is decided by the slope alone. *)
Theorem ema_recurrence_and_slope (self : Strategy.Strategy) (df : DataFrame)
    (rows : list Strategy.IndicatorRow) :
  Strategy.calculate_indicators self df = inr rows ->
  (forall row, nth_error rows 0 = Some row ->
     Strategy.ema_20 row = close (Strategy.bar row)
     /\ Strategy.ema_slope row = None)
  /\ (forall i row prev,
        nth_error rows (S i) = Some row ->
        nth_error rows i = Some prev ->
        Strategy.ema_20 row
        = (1 - 2 / (Strategy.ema_length self + 1)) * Strategy.ema_20 prev
          + 2 / (Strategy.ema_length self + 1) * close (Strategy.bar row)
        /\ Strategy.ema_slope row
           = Some (Strategy.ema_20 row - Strategy.ema_20 prev)
        /\ (1 < Strategy.ema_length self ->
            Strategy.ema_bullish row
            = Strategy.slope_pos (Strategy.ema_slope row)
            /\ Strategy.ema_bearish row
               = Strategy.slope_neg (Strategy.ema_slope row))).
Proof. exact (ema_rows self df rows). Qed.

Lemma ema_recurrence_and_slope_witness :
  exists rows row prev,
    Strategy.calculate_indicators Strategy.default Sample.wide_df = inr rows
    /\ nth_error rows 1 = Some row
    /\ nth_error rows 0 = Some prev
    /\ Strategy.ema_slope row
       = Some (Strategy.ema_20 row - Strategy.ema_20 prev)
    /\ Strategy.ema_bullish row
       = Strategy.slope_pos (Strategy.ema_slope row).
Proof.
  eexists. eexists. eexists.
  split; [ vm_compute; reflexivity | ].
  split; [ reflexivity | ]. split; [ reflexivity | ].
  pose proof (proj2 (ema_recurrence_and_slope Strategy.default
                       Sample.wide_df _ ltac:(vm_compute; reflexivity))
                0%nat _ _ eq_refl eq_refl) as (_ & Hslope & Htests).
  split; [ exact Hslope | ].
  apply Htests. reflexivity.
Defined.

(** *** Windows: volume baseline and prior-session extremes *)

Lemma nth_map_seq {A : Type} (f : nat -> A) (n i : nat) (d : A) :
  (i < n)%nat -> nth i (map f (seq 0 n)) d = f i.
Proof.
  intros H. apply nth_error_nth.
  rewrite nth_error_map, nth_error_seq.
  destruct (Nat.ltb_spec i n); [ reflexivity | lia ].
Qed.

Lemma In_slice {A : Type} (xs : list A) (lo hi : nat) (x : A) :
  In x (Strategy.slice xs lo hi)
  <-> exists j, (lo <= j < hi)%nat /\ nth_error xs j = Some x.
Proof.
  unfold Strategy.slice. rewrite In_iff_nth_error. split.
  - intros (n & Hn). rewrite nth_error_firstn, nth_error_skipn in Hn.
    destruct (Nat.ltb_spec n (hi - lo)); [ | discriminate ].
    exists (lo + n)%nat. split; [ lia | exact Hn ].
  - intros (j & Hj & Hx). exists (j - lo)%nat.
    rewrite nth_error_firstn, nth_error_skipn.
    destruct (Nat.ltb_spec (j - lo) (hi - lo)); [ | lia ].
    replace (lo + (j - lo))%nat with j by lia. exact Hx.
Qed.

Lemma fold_Qmax (rest : list Q) :
  forall x,
    In (fold_left Strategy.Qmax rest x) (x :: rest)
    /\ forall y, In y (x :: rest) -> y <= fold_left Strategy.Qmax rest x.
Proof.
  induction rest as [ | z rest IH ]; intros x.
  - cbn. split; [ left; reflexivity | ].
    intros y [ <- | [] ]. apply Qle_refl.
  - cbn [fold_left]. destruct (IH (Strategy.Qmax x z)) as (Hin & Hub).
    assert (x <= Strategy.Qmax x z /\ z <= Strategy.Qmax x z
            /\ (Strategy.Qmax x z = x \/ Strategy.Qmax x z = z))
      as (Hx & Hz & Hsel).
    { unfold Strategy.Qmax. destruct (x <=? z) eqn:E.
      - apply Qle_bool_iff in E. repeat split; auto using Qle_refl.
      - apply Qleb_false_iff in E.
        repeat split; auto using Qle_refl, Qlt_le_weak. }
    split.
    + destruct Hin as [ Hin | Hin ]; [ | right; right; exact Hin ].
      rewrite <- Hin. destruct Hsel as [ -> | -> ]; cbn; auto.
    + intros y [ <- | [ <- | Hy ] ].
      * apply Qle_trans with (Strategy.Qmax x z);
          [ exact Hx | apply Hub; left; reflexivity ].
      * apply Qle_trans with (Strategy.Qmax x z);
          [ exact Hz | apply Hub; left; reflexivity ].
      * apply Hub. right. exact Hy.
Qed.

Lemma fold_Qmin (rest : list Q) :
  forall x,
    In (fold_left Strategy.Qmin rest x) (x :: rest)
    /\ forall y, In y (x :: rest) -> fold_left Strategy.Qmin rest x <= y.
Proof.
  induction rest as [ | z rest IH ]; intros x.
  - cbn. split; [ left; reflexivity | ].
    intros y [ <- | [] ]. apply Qle_refl.
  - cbn [fold_left]. destruct (IH (Strategy.Qmin x z)) as (Hin & Hlb).
    assert (Strategy.Qmin x z <= x /\ Strategy.Qmin x z <= z
            /\ (Strategy.Qmin x z = x \/ Strategy.Qmin x z = z))
      as (Hx & Hz & Hsel).
    { unfold Strategy.Qmin. destruct (x <=? z) eqn:E.
      - apply Qle_bool_iff in E. repeat split; auto using Qle_refl.
      - apply Qleb_false_iff in E.
        repeat split; auto using Qle_refl, Qlt_le_weak. }
    split.
    + destruct Hin as [ Hin | Hin ]; [ | right; right; exact Hin ].
      rewrite <- Hin. destruct Hsel as [ -> | -> ]; cbn; auto.
    + intros y [ <- | [ <- | Hy ] ].
      * apply Qle_trans with (Strategy.Qmin x z);
          [ apply Hlb; left; reflexivity | exact Hx ].
      * apply Qle_trans with (Strategy.Qmin x z);
          [ apply Hlb; left; reflexivity | exact Hz ].
      * apply Hlb. right. exact Hy.
Qed.

(** The trailing extremum column: undefined at position 0, afterwards an
    element of the window before the position that bounds the window. *)
Lemma shift_rolling_nth (ext : Q -> Q -> Q) (w : nat) (xs : list Q)
    (i : nat) :
  (i < length xs)%nat ->
  nth i (Strategy.shift_rolling ext w xs) None
  = match Strategy.slice xs (i - w) i with
    | [] => None
    | x :: rest => Some (fold_left ext rest x)
    end.
Proof.
  intros H. unfold Strategy.shift_rolling.
  rewrite (nth_map_seq _ _ i None H). reflexivity.
Qed.

Lemma slice_nonempty {A : Type} (xs : list A) (lo i : nat) :
  (lo < i <= length xs)%nat -> Strategy.slice xs lo i <> [].
Proof.
  intros H Hnil.
  destruct (nth_error xs lo) as [ x | ] eqn:E.
  - assert (In x (Strategy.slice xs lo i)) as Hin
      by (apply In_slice; exists lo; split; [ lia | exact E ]).
    rewrite Hnil in Hin. exact Hin.
  - apply nth_error_None in E. lia.
Qed.

(** X7.  The volume baseline is undefined in the first 19 rows, where no
    volume spike is flagged whatever the volume is; from row 19 on it is
    the mean of the 20 volumes ending at the row. *)
Theorem volume_warm_up (self : Strategy.Strategy) (df : DataFrame)
    (rows : list Strategy.IndicatorRow) (i : nat)
    (row : Strategy.IndicatorRow) :
  Strategy.calculate_indicators self df = inr rows ->
  nth_error rows i = Some row ->
  ((i < 19)%nat ->
   Strategy.volume_ma row = None /\ Strategy.volume_spike row = false)
  /\ ((19 <= i)%nat ->
      Strategy.volume_ma row
      = Some (Qsum (Strategy.slice (map volume df) (i - 19) (i + 1)) / 20)).
Proof.
  intros H Hrow.
  destruct (calculate_indicators_row self df rows i row H Hrow)
    as (ema & b & _ & Hb & ->).
  assert (i < length (map volume df))%nat as Hi
    by (rewrite length_map; apply nth_error_Some; congruence).
  unfold Strategy.indicator_row. cbv zeta.
  cbn [Strategy.volume_ma Strategy.volume_spike].
  unfold Strategy.rolling_mean.
  rewrite (nth_map_seq _ _ i None Hi).
  split; intros Hwarm.
  - destruct (Nat.ltb_spec (i + 1) 20); [ | lia ]. split; reflexivity.
  - destruct (Nat.ltb_spec (i + 1) 20); [ lia | ].
    replace (i + 1 - 20)%nat with (i - 19)%nat by lia. reflexivity.
Qed.

Lemma volume_warm_up_witness :
  exists rows row,
    Strategy.calculate_indicators Strategy.default Sample.wide_df = inr rows
    /\ nth_error rows 2 = Some row
    /\ Strategy.volume_ma row = None
    /\ Strategy.volume_spike row = false.
Proof.
  eexists. eexists.
  split; [ vm_compute; reflexivity | ].
  split; [ reflexivity | ].
  refine (proj1 (volume_warm_up Strategy.default Sample.wide_df _ 2 _ _ _) _).
  - vm_compute. reflexivity.
  - reflexivity.
  - lia.
Defined.

(** X8.  The prior-session high and low of a row never look at the row
    itself: they are undefined in the first row, and in row [i > 0] they are
    the highest high and the lowest low among the up to 288 bars before
    [i] (attained by one of them, and bounding all of them). *)
Theorem prior_session_extremes (self : Strategy.Strategy) (df : DataFrame)
    (rows : list Strategy.IndicatorRow) (i : nat)
    (row : Strategy.IndicatorRow) :
  Strategy.calculate_indicators self df = inr rows ->
  nth_error rows i = Some row ->
  (i = 0%nat ->
   Strategy.prev_day_high row = None /\ Strategy.prev_day_low row = None)
  /\ ((0 < i)%nat ->
      exists h l,
        Strategy.prev_day_high row = Some h
        /\ Strategy.prev_day_low row = Some l
        /\ (exists j b, (i - 288 <= j < i)%nat
                        /\ nth_error df j = Some b /\ high b = h)
        /\ (exists j b, (i - 288 <= j < i)%nat
                        /\ nth_error df j = Some b /\ low b = l)
        /\ (forall j b, (i - 288 <= j < i)%nat -> nth_error df j = Some b ->
                        high b <= h /\ l <= low b)).
Proof.
  intros H Hrow.
  destruct (calculate_indicators_row self df rows i row H Hrow)
    as (ema & b & _ & Hb & ->).
  assert (i < length df)%nat as Hi by (apply nth_error_Some; congruence).
  unfold Strategy.indicator_row. cbv zeta.
  cbn [Strategy.prev_day_high Strategy.prev_day_low].
  rewrite !shift_rolling_nth by (rewrite length_map; exact Hi).
  split.
  - intros ->. split; reflexivity.
  - intros Hpos.
    pose proof (slice_nonempty (map high df) (i - 288) i
                  ltac:(rewrite length_map; lia)) as Hh.
    pose proof (slice_nonempty (map low df) (i - 288) i
                  ltac:(rewrite length_map; lia)) as Hl.
    destruct (Strategy.slice (map high df) (i - 288) i)
      as [ | h0 hs ] eqn:Eh; [ congruence | ].
    destruct (Strategy.slice (map low df) (i - 288) i)
      as [ | l0 ls ] eqn:El; [ congruence | ].
    destruct (fold_Qmax hs h0) as (Hhin & Hhub).
    destruct (fold_Qmin ls l0) as (Hlin & Hllb).
    rewrite <- Eh in Hhin, Hhub. rewrite <- El in Hlin, Hllb.
    exists (fold_left Strategy.Qmax hs h0), (fold_left Strategy.Qmin ls l0).
    split; [ reflexivity | ]. split; [ reflexivity | ].
    split; [ | split ].
    + apply In_slice in Hhin as (j & Hj & Hx).
      rewrite nth_error_map in Hx.
      destruct (nth_error df j) as [ bj | ] eqn:Ej; [ | discriminate ].
      injection Hx as Hx. exists j, bj. auto.
    + apply In_slice in Hlin as (j & Hj & Hx).
      rewrite nth_error_map in Hx.
      destruct (nth_error df j) as [ bj | ] eqn:Ej; [ | discriminate ].
      injection Hx as Hx. exists j, bj. auto.
    + intros j bj Hj Hbj. split.
      * apply Hhub. apply In_slice. exists j. split; [ exact Hj | ].
        rewrite nth_error_map, Hbj. reflexivity.
      * apply Hllb. apply In_slice. exists j. split; [ exact Hj | ].
        rewrite nth_error_map, Hbj. reflexivity.
Qed.

Lemma prior_session_extremes_witness :
  exists rows row h l,
    Strategy.calculate_indicators Strategy.default Sample.wide_df = inr rows
    /\ nth_error rows 2 = Some row
    /\ Strategy.prev_day_high row = Some h
    /\ Strategy.prev_day_low row = Some l
    /\ (forall j b, (2 - 288 <= j < 2)%nat ->
                    nth_error Sample.wide_df j = Some b ->
                    high b <= h /\ l <= low b).
Proof.
  eexists. eexists.
  destruct (proj2 (prior_session_extremes Strategy.default Sample.wide_df
                     _ 2 _ ltac:(vm_compute; reflexivity) eq_refl)
              ltac:(lia))
    as (h & l & Hh & Hl & _ & _ & Hbound).
  exists h, l. split; [ vm_compute; reflexivity | ].
  split; [ reflexivity | ]. split; [ exact Hh | ].
  split; [ exact Hl | exact Hbound ].
Defined.

(** ** More on signal detection *)

Lemma long_df_detected :
  Strategy.detect_signals Strategy.default Sample.long_df
  = Sample.long_df_signals.
Proof. vm_compute. reflexivity. Qed.

(** Where an emitted signal comes from. *)
Lemma emitted_signal_inv (self : Strategy.Strategy) (df : DataFrame)
    (signals : list Signal) (s : Signal) :
  Strategy.detect_signals self df = inr signals ->
  In s signals ->
  exists rows row prev_row,
    Strategy.calculate_indicators self df = inr rows
    /\ (100 <= entry_index s < len df)%Z
    /\ iloc rows (entry_index s) = inr row
    /\ iloc rows (entry_index s - 1) = inr prev_row
    /\ iloc df (entry_index s) = inr (Strategy.bar row)
    /\ iloc df (entry_index s - 1) = inr (Strategy.bar prev_row)
    /\ Strategy.resolve self row prev_row (entry_index s) = Some s.
Proof.
  intros H Hs.
  apply detect_signals_shape in H as (rows & Hrows & _ & Hfrom & _).
  destruct (Hfrom s Hs) as (Hrange & Hsig).
  apply signal_at_inv in Hsig as (row & prev_row & Hrow & Hprev & Hres).
  exists rows, row, prev_row.
  pose proof (calculate_indicators_rows self df rows Hrows) as (_ & Hbars).
  repeat split; try assumption; try lia; apply Hbars; assumption || lia.
Qed.

(** X9.  The Long and the Short conditions are never satisfied together
    (the first needs [close > open], the second [close < open]), so on no
    bar does the order of the two tests decide the direction. *)
Theorem long_short_exclusive (self : Strategy.Strategy)
    (row prev_row : Strategy.IndicatorRow) :
  Strategy.long_conditions self row prev_row
  && Strategy.short_conditions self row prev_row = false.
Proof.
  unfold Strategy.long_conditions, Strategy.short_conditions,
    Strategy.bullish_confirm, Strategy.bearish_confirm.
  destruct (close (Strategy.bar row) >? open (Strategy.bar row)) eqn:E1;
    destruct (close (Strategy.bar row) <? open (Strategy.bar row)) eqn:E2.
  - apply Qltb_iff in E1, E2. lra.
  - rewrite ?andb_false_l, ?andb_false_r.
    reflexivity || apply andb_false_r.
  - rewrite ?andb_false_l, ?andb_false_r.
    reflexivity || apply andb_false_r.
  - rewrite ?andb_false_l, ?andb_false_r.
    reflexivity || apply andb_false_r.
Qed.

Lemma range_from_sorted (n : nat) :
  forall a, StronglySorted Z.lt (range_from a n).
Proof.
  induction n as [ | n IH ]; intros a; cbn; constructor.
  - apply IH.
  - apply Forall_forall. intros i Hi. apply range_from_In in Hi. lia.
Qed.

Lemma detect_loop_sorted (self : Strategy.Strategy)
    (rows : list Strategy.IndicatorRow) (idxs : list Z) :
  forall acc out,
    StronglySorted Z.lt idxs ->
    Strategy.detect_loop self rows idxs acc = inr out ->
    exists new,
      out = acc ++ new
      /\ StronglySorted Z.lt (map entry_index new)
      /\ Forall (fun s => In (entry_index s) idxs) new.
Proof.
  induction idxs as [ | i rest IH ]; intros acc out Hsorted H.
  - cbn in H. injection H as <-. exists []. rewrite app_nil_r.
    repeat split; constructor.
  - cbn [Strategy.detect_loop] in H. unfold bind in H.
    destruct (Strategy.signal_at self rows i) as [ e | emitted ] eqn:Hat;
      [ discriminate | ].
    apply StronglySorted_inv in Hsorted as (Hrest & Hlt).
    apply IH in H as (new & -> & Hnew & Hin); [ | exact Hrest ].
    assert (Forall (fun s => In (entry_index s) (i :: rest)) new) as Hin'
      by (apply Forall_impl with (2 := Hin); intros s Hs; right; exact Hs).
    destruct emitted as [ s | ].
    + exists (s :: new). rewrite <- app_assoc. cbn [app].
      pose proof (signal_at_index self rows i s Hat) as Hidx.
      split; [ reflexivity | ]. split.
      * cbn [map]. constructor; [ exact Hnew | ].
        rewrite Hidx. apply Forall_forall. intros k Hk.
        apply in_map_iff in Hk as (u & <- & Hu).
        rewrite Forall_forall in Hin, Hlt. apply Hlt. apply Hin. exact Hu.
      * constructor; [ left; symmetry; exact Hidx | exact Hin' ].
    + exists new. auto.
Qed.

(** X10.  The signals come out in bar order: their positions are strictly
    increasing, and each lies between 100 and the last row of the frame. *)
Theorem signals_in_bar_order (self : Strategy.Strategy) (df : DataFrame)
    (signals : list Signal) :
  Strategy.detect_signals self df = inr signals ->
  StronglySorted Z.lt (map entry_index signals)
  /\ Forall (fun s => (100 <= entry_index s < len df)%Z) signals.
Proof.
  unfold Strategy.detect_signals. unfold bind at 1.
  destruct (Strategy.calculate_indicators self df) as [ e | rows ] eqn:Hrows;
    [ discriminate | ].
  intros H.
  apply calculate_indicators_rows in Hrows as (Hlen & _).
  apply detect_loop_sorted in H as (new & -> & Hsorted & Hin);
    [ | apply range_from_sorted ].
  cbn [app]. split; [ exact Hsorted | ].
  apply Forall_impl with (2 := Hin). intros s Hs.
  apply py_range_In in Hs. lia.
Qed.

Lemma signals_in_bar_order_witness :
  exists signals,
    Strategy.detect_signals Strategy.default Sample.long_df = inr signals
    /\ StronglySorted Z.lt (map entry_index signals)
    /\ Forall (fun s => (100 <= entry_index s < len Sample.long_df)%Z)
         signals.
Proof.
  eexists. split; [ exact long_df_detected | ].
  apply (signals_in_bar_order Strategy.default Sample.long_df).
  exact long_df_detected.
Defined.

(** X11.  Every emitted signal is stamped with the time of its bar, which
    lies in the session hours 8, 9 or 10.  The bar before it carries the
    volume spike: its volume exceeds the multiplier times the mean of the 20
    volumes ending at that bar.  A Long signal sits on a bar that closes
    above its open and above the previous bar's high, a Short signal on a
    bar that closes below its open and below the previous bar's low. *)
Theorem signal_gates (self : Strategy.Strategy) (df : DataFrame)
    (signals : list Signal) (s : Signal) :
  Strategy.detect_signals self df = inr signals ->
  In s signals ->
  exists b p,
    iloc df (entry_index s) = inr b
    /\ iloc df (entry_index s - 1) = inr p
    /\ timestamp s = name b
    /\ (8 <= hour (timestamp s) < 11)%Z
    /\ Qsum (Strategy.slice (map volume df)
               (Z.to_nat (entry_index s - 1) - 19)
               (Z.to_nat (entry_index s - 1) + 1)) / 20
        * Strategy.volume_multiplier self < volume p
    /\ match direction s with
       | LONG => open b < close b /\ high p < close b
       | SHORT => close b < open b /\ close b < low p
       end.
Proof.
  intros H Hs.
  destruct (emitted_signal_inv self df signals s H Hs)
    as (rows & row & prev_row & Hrows & Hrange & Hrow & Hprev & Hb & Hp
        & Hres).
  exists (Strategy.bar row), (Strategy.bar prev_row).
  apply resolve_inv in Hres as (Hsess & _ & Hvol & Hdir).
  split; [ exact Hb | ]. split; [ exact Hp | ].
  assert (timestamp s = name (Strategy.bar row)) as Hts
    by (destruct Hdir as [ (_ & ->) | (_ & _ & ->) ]; reflexivity).
  split; [ exact Hts | ]. split.
  { rewrite Hts. unfold Strategy.is_london_session in Hsess.
    apply andb_true_iff in Hsess as (H8 & H11).
    apply Z.leb_le in H8. apply Z.ltb_lt in H11. lia. }
  split.
  { apply iloc_nth_error in Hprev; [ | lia ].
    set (k := Z.to_nat (entry_index s - 1)) in *.
    destruct (calculate_indicators_row self df rows k prev_row Hrows Hprev)
      as (ema & b & _ & Hbk & Heq).
    assert (k < length (map volume df))%nat as Hk
      by (rewrite length_map; apply nth_error_Some; congruence).
    rewrite Heq in Hvol |- *. unfold Strategy.indicator_row in *.
    cbv zeta in *. cbn [Strategy.volume_spike Strategy.bar] in *.
    unfold Strategy.rolling_mean in Hvol.
    rewrite (nth_map_seq _ _ k None Hk) in Hvol.
    destruct (Nat.ltb_spec (k + 1) 20); [ discriminate | ].
    cbn [option_map Strategy.gt_nan] in Hvol. apply Qltb_iff in Hvol.
    replace (k - 19)%nat with (k + 1 - 20)%nat by lia. exact Hvol. }
  destruct Hdir as [ (Hlong & ->) | (_ & Hshort & ->) ]; cbn.
  - unfold Strategy.long_conditions, Strategy.bullish_confirm in Hlong.
    repeat (apply andb_true_iff in Hlong as (Hlong & ?)).
    repeat match goal with
           | Hc : _ && _ = true |- _ => apply andb_true_iff in Hc as (? & ?)
           end.
    repeat match goal with
           | Hc : (_ <? _) = true |- _ => apply Qltb_iff in Hc
           end.
    split; assumption.
  - unfold Strategy.short_conditions, Strategy.bearish_confirm in Hshort.
    repeat (apply andb_true_iff in Hshort as (Hshort & ?)).
    repeat match goal with
           | Hc : _ && _ = true |- _ => apply andb_true_iff in Hc as (? & ?)
           end.
    repeat match goal with
           | Hc : (_ <? _) = true |- _ => apply Qltb_iff in Hc
           end.
    split; assumption.
Qed.

Lemma signal_gates_witness :
  exists s b p,
    Strategy.detect_signals Strategy.default Sample.long_df = inr [ s ]
    /\ iloc Sample.long_df (entry_index s) = inr b
    /\ iloc Sample.long_df (entry_index s - 1) = inr p
    /\ timestamp s = name b
    /\ (8 <= hour (timestamp s) < 11)%Z.
Proof.
  eexists.
  destruct (signal_gates Strategy.default Sample.long_df _ _
              long_df_detected (or_introl eq_refl))
    as (b & p & Hb & Hp & Hts & Hhour & _).
  exists b, p. split; [ exact long_df_detected | ].
  repeat split; assumption || apply Hhour.
Defined.

(** X12.  With a positive pip size and positive stop and target distances
    every emitted Long signal has its stop below and both targets above the
    entry price, and every Short signal the reverse; the second target is
    the farther one whenever [tp1_pips < tp2_pips]. *)
Theorem signal_levels_ordered (self : Strategy.Strategy) (df : DataFrame)
    (signals : list Signal) (s : Signal) :
  0 < Strategy.pip_value self ->
  0 < Strategy.stop_loss_pips self ->
  0 < Strategy.tp1_pips self ->
  0 < Strategy.tp2_pips self ->
  Strategy.detect_signals self df = inr signals ->
  In s signals ->
  match direction s with
  | LONG =>
      stop_loss s < entry_price s < tp1 s
      /\ entry_price s < tp2 s
      /\ (Strategy.tp1_pips self < Strategy.tp2_pips self -> tp1 s < tp2 s)
  | SHORT =>
      tp1 s < entry_price s < stop_loss s
      /\ tp2 s < entry_price s
      /\ (Strategy.tp1_pips self < Strategy.tp2_pips self -> tp2 s < tp1 s)
  end.
Proof.
  intros Hpip Hsl Ht1 Ht2 H Hs.
  destruct (emitted_signal_inv self df signals s H Hs)
    as (rows & row & prev_row & _ & _ & _ & _ & _ & _ & Hres).
  apply resolve_inv in Hres as (_ & _ & _ & Hdir).
  pose proof (Qmult_lt_0_compat _ _ Hsl Hpip) as Psl.
  pose proof (Qmult_lt_0_compat _ _ Ht1 Hpip) as Pt1.
  pose proof (Qmult_lt_0_compat _ _ Ht2 Hpip) as Pt2.
  assert (Strategy.tp1_pips self < Strategy.tp2_pips self ->
          Strategy.tp1_pips self * Strategy.pip_value self
          < Strategy.tp2_pips self * Strategy.pip_value self) as Pord
    by (intros Hlt; apply Qmult_lt_compat_r; assumption).
  destruct Hdir as [ (_ & ->) | (_ & _ & ->) ];
    cbn; unfold Strategy.pips_to_price;
    (split; [ split; lra | split; [ lra | intros Hlt; apply Pord in Hlt; lra ] ]).
Qed.

Lemma signal_levels_ordered_witness :
  exists s,
    Strategy.detect_signals Strategy.default Sample.long_df = inr [ s ]
    /\ direction s = LONG
    /\ stop_loss s < entry_price s < tp1 s
    /\ entry_price s < tp2 s.
Proof.
  eexists. split; [ exact long_df_detected | ].
  split; [ reflexivity | ].
  pose proof (signal_levels_ordered Strategy.default Sample.long_df _ _
                eq_refl eq_refl eq_refl eq_refl long_df_detected
                (or_introl eq_refl)) as (Hlev & Htp2 & _).
  split; assumption.
Defined.

(** X13.  The level recorded in a signal is [Round] exactly when its entry
    price passes the round-number test (which so takes precedence); a signal
    recorded as [PrevDay] enters within 5 pips of the prior-session high or
    of the prior-session low of its bar. *)
Theorem signal_level_type (self : Strategy.Strategy) (df : DataFrame)
    (signals : list Signal) (s : Signal) :
  Strategy.detect_signals self df = inr signals ->
  In s signals ->
  (level_type s = Round
   <-> Strategy.is_near_round_number self (entry_price s) 5 = true)
  /\ (level_type s = PrevDay ->
      exists rows row v,
        Strategy.calculate_indicators self df = inr rows
        /\ iloc rows (entry_index s) = inr row
        /\ (Strategy.prev_day_high row = Some v
            \/ Strategy.prev_day_low row = Some v)
        /\ Qabs (entry_price s - v) < 5 * Strategy.pip_value self).
Proof.
  intros H Hs.
  destruct (emitted_signal_inv self df signals s H Hs)
    as (rows & row & prev_row & Hrows & _ & Hrow & _ & _ & _ & Hres).
  apply resolve_inv in Hres as (_ & Hkey & _ & Hdir).
  assert (entry_price s = close (Strategy.bar row)
          /\ level_type s
             = if Strategy.at_round_number self row then Round else PrevDay)
    as (Hentry & Hlevel)
    by (destruct Hdir as [ (_ & ->) | (_ & _ & ->) ]; split; reflexivity).
  rewrite Hlevel, Hentry. fold (Strategy.at_round_number self row).
  unfold Strategy.at_key_level in Hkey.
  destruct (Strategy.at_round_number self row) eqn:Eround.
  - split; [ tauto | discriminate ].
  - split; [ split; discriminate | ].
    intros _. cbn in Hkey.
    unfold Strategy.at_prev_day_high, Strategy.at_prev_day_low,
      Strategy.near_level, Strategy.pips_to_price in Hkey.
    apply orb_true_iff in Hkey as [ Hkey | Hkey ].
    + destruct (Strategy.prev_day_high row) as [ v | ] eqn:Ev;
        [ | discriminate ].
      apply Qltb_iff in Hkey. exists rows, row, v. auto.
    + destruct (Strategy.prev_day_low row) as [ v | ] eqn:Ev;
        [ | discriminate ].
      apply Qltb_iff in Hkey. exists rows, row, v. auto.
Qed.

Lemma signal_level_type_witness :
  exists s,
    Strategy.detect_signals Strategy.default Sample.long_df = inr [ s ]
    /\ level_type s = Round.
Proof.
  eexists. split; [ exact long_df_detected | ].
  apply (proj1 (signal_level_type Strategy.default Sample.long_df _ _
                  long_df_detected (or_introl eq_refl))).
  vm_compute. reflexivity.
Defined.

(** X23.  With an EMA length equal to 1 the trend average is the close
    itself, neither EMA-alignment test can hold, and the detector emits no
    signal on any frame. *)
Theorem unit_ema_length_never_signals (self : Strategy.Strategy)
    (df : DataFrame) :
  Strategy.ema_length self == 1 ->
  Strategy.detect_signals self df = inr [].
Proof.
  intros Hone.
  assert (1 <= Strategy.ema_length self) as Hspan
    by (rewrite Hone; apply Qle_refl).
  destruct (detect_signals_returns self df Hspan) as (signals & Hsig).
  rewrite Hsig. f_equal.
  destruct signals as [ | s rest ]; [ reflexivity | exfalso ].
  destruct (emitted_signal_inv self df (s :: rest) s Hsig
              (or_introl eq_refl))
    as (rows & row & prev_row & Hrows & Hrange & Hrow & Hprev & _ & _
        & Hres).
  apply iloc_nth_error in Hrow; [ | lia ].
  apply iloc_nth_error in Hprev; [ | lia ].
  replace (Z.to_nat (entry_index s))
    with (S (Z.to_nat (entry_index s - 1))) in Hrow by lia.
  destruct (proj2 (ema_rows self df rows Hrows) _ row prev_row Hrow Hprev)
    as (Hema & _ & _).
  assert (Strategy.ema_20 row == close (Strategy.bar row)) as Heq.
  { rewrite Hema, Hone. field. }
  assert (Strategy.ema_bullish row = false /\ Strategy.ema_bearish row = false)
    as (Hbull & Hbear).
  { unfold Strategy.ema_bullish, Strategy.ema_bearish.
    split; apply andb_false_iff; right; apply Qltb_false_iff;
      rewrite Heq; apply Qle_refl. }
  apply resolve_inv in Hres as (_ & _ & _ & Hdir).
  unfold Strategy.long_conditions, Strategy.short_conditions in Hdir.
  rewrite Hbull, Hbear, !andb_false_r in Hdir.
  destruct Hdir as [ (H & _) | (_ & H & _) ]; discriminate.
Qed.

Lemma unit_ema_length_never_signals_witness :
  exists self,
    Strategy.init 1.5 8 5 1 15 20 30 = inr self
    /\ Strategy.detect_signals self Sample.long_df = inr [].
Proof.
  eexists. split; [ reflexivity | ].
  apply unit_ema_length_never_signals. reflexivity.
Defined.

(** ** More on trade simulation *)

Section Exits.

Import Engine.

Variable df : DataFrame.

(** What a successful test on one bar says about the bar. *)
Lemma check_exit_inv (d : Direction) (b : Bar) (sl t1 t2 p : Q)
    (r : ExitReason) :
  check_exit d b sl t1 t2 = Some (p, r) ->
  match d, r with
  | LONG, STOP_LOSS => low b <= sl /\ p = sl
  | LONG, TP2 => sl < low b /\ t2 <= high b /\ p = t2
  | LONG, TP1 => sl < low b /\ high b < t2 /\ t1 <= high b /\ p = t1
  | SHORT, STOP_LOSS => sl <= high b /\ p = sl
  | SHORT, TP2 => high b < sl /\ low b <= t2 /\ p = t2
  | SHORT, TP1 => high b < sl /\ t2 < low b /\ low b <= t1 /\ p = t1
  | _, TIME_STOP => False
  end.
Proof.
  unfold check_exit. destruct d.
  - destruct (low b <=? sl) eqn:E1;
      [ | destruct (t2 <=? high b) eqn:E2;
          [ | destruct (t1 <=? high b) eqn:E3 ] ];
      rewrite ?Qle_bool_iff, ?Qleb_false_iff in *;
      intros H; inversion H; subst; auto.
  - destruct (sl <=? high b) eqn:E1;
      [ | destruct (low b <=? t2) eqn:E2;
          [ | destruct (low b <=? t1) eqn:E3 ] ];
      rewrite ?Qle_bool_iff, ?Qleb_false_iff in *;
      intros H; inversion H; subst; auto.
Qed.

(** The scan over consecutive positions, read backwards from its
    result. *)
Lemma scan_forward_range_inv (d : Direction) (sl t1 t2 : Q) (n : nat) :
  forall a bars found bars',
    scan_forward df d sl t1 t2 (range_from a n) bars = inr (found, bars') ->
    let k := (bars' - bars)%Z in
    (0 <= k <= Z.of_nat n)%Z
    /\ match found with
       | Some e =>
           (1 <= k)%Z
           /\ (exists b, iloc df (a + k - 1) = inr b
                         /\ check_exit d b sl t1 t2 = Some e)
           /\ forall i, (a <= i < a + k - 1)%Z ->
                exists bi, iloc df i = inr bi /\ quiet d sl t1 t2 bi
       | None =>
           k = Z.of_nat n
           /\ forall i, (a <= i < a + k)%Z ->
                exists bi, iloc df i = inr bi /\ quiet d sl t1 t2 bi
       end.
Proof.
  induction n as [ | n IH ]; intros a bars found bars' H.
  - cbn in H. injection H as <- <-. cbn. split; [ lia | ].
    split; [ lia | ]. intros i Hi. lia.
  - cbn [range_from scan_forward] in H. unfold bind in H.
    destruct (iloc df a) as [ e | b ] eqn:Hb; [ discriminate | ].
    destruct (check_exit d b sl t1 t2) as [ e | ] eqn:He.
    + injection H as <- <-. cbv zeta.
      replace (bars + 1 - bars)%Z with 1%Z by lia.
      split; [ lia | ]. split; [ lia | ]. split.
      * exists b. replace (a + 1 - 1)%Z with a by lia. auto.
      * intros i Hi. lia.
    + apply IH in H. cbv zeta in H |- *.
      destruct H as (Hk & Hfound).
      replace (bars' - (bars + 1))%Z with (bars' - bars - 1)%Z in * by lia.
      set (k := (bars' - bars)%Z) in *.
      split; [ lia | ].
      apply check_exit_quiet in He.
      destruct found as [ e | ].
      * destruct Hfound as (Hk1 & (bx & Hbx & Hex) & Hcalm).
        split; [ lia | ]. split.
        -- exists bx. replace (a + k - 1)%Z with (a + 1 + (k - 1) - 1)%Z
             by lia. auto.
        -- intros i Hi. destruct (Z.eq_dec i a) as [ -> | Hne ].
           ++ exists b. auto.
           ++ apply Hcalm. lia.
      * destruct Hfound as (Hkn & Hcalm). split; [ lia | ].
        intros i Hi. destruct (Z.eq_dec i a) as [ -> | Hne ].
        -- exists b. auto.
        -- apply Hcalm. lia.
Qed.

(** The trade record, read backwards. *)
Lemma execute_trade_inv_full (s : Signal) (t : Trade) :
  execute_trade df s = inr t ->
  exists found,
    scan_forward df (direction s) (stop_loss s) (tp1 s) (tp2 s)
      (py_range (entry_index s + 1)
         (Z.min (entry_index s + max_bars) (len df))) 0%Z
    = inr (found, bars_in_trade t)
    /\ match found with
       | Some e => exit_price t = fst e /\ exit_reason t = snd e
       | None =>
           exit_reason t = TIME_STOP
           /\ exists last,
                iloc df (Z.min (entry_index s + max_bars - 1) (len df - 1))
                = inr last
                /\ exit_price t = close last
       end
    /\ entry_time t = timestamp s
    /\ t_direction t = direction s
    /\ t_entry_price t = entry_price s
    /\ t_level_type t = level_type s
    /\ pips t = match direction s with
                | LONG => (exit_price t - entry_price s) / (1 # 10000)
                | SHORT => (entry_price s - exit_price t) / (1 # 10000)
                end
    /\ win t = (pips t >? 0).
Proof.
  unfold execute_trade. cbv zeta. unfold bind at 1.
  destruct (scan_forward _ _ _ _ _ _ _) as [ e | [ found bars ] ];
    [ discriminate | ].
  intros H. exists found.
  destruct found as [ [ ep er ] | ].
  - cbn in H. injection H as <-. cbn. repeat split.
  - unfold bind in H.
    destruct (iloc df _) as [ e | last ] eqn:Hlast; [ discriminate | ].
    cbn in H. injection H as <-. cbn.
    split; [ reflexivity | ]. split; [ | repeat split ].
    split; [ reflexivity | ]. exists last. auto.
Qed.

Lemma scan_forward_nil_frame (d : Direction) (sl t1 t2 : Q) (idxs : list Z)
    (bars : Z) :
  scan_forward [] d sl t1 t2 idxs bars
  = match idxs with
    | [] => inr (None, bars)
    | _ :: _ => inl IndexError
    end.
Proof.
  destruct idxs as [ | i rest ]; [ reflexivity | ].
  cbn [scan_forward]. rewrite iloc_nil. reflexivity.
Qed.

End Exits.

Lemma execute_trade_nil_frame (s : Signal) :
  Engine.execute_trade [] s = inl IndexError.
Proof.
  unfold Engine.execute_trade. cbv zeta. rewrite scan_forward_nil_frame.
  destruct (py_range _ _); [ | reflexivity ].
  cbn. rewrite iloc_nil. reflexivity.
Qed.

Lemma execute_trade_returns_nonneg (df : DataFrame) (s : Signal) :
  df <> [] -> (0 <= entry_index s)%Z ->
  exists t, Engine.execute_trade df s = inr t.
Proof.
  intros Hdf Hentry.
  assert (0 < len df)%Z as Hlen
    by (destruct df; [ congruence | unfold len; cbn [length]; lia ]).
  destruct (Z_lt_dec (entry_index s) (len df)) as [ Hin | Hout ].
  - apply execute_trade_returns. lia.
  - unfold Engine.execute_trade. cbv zeta.
    unfold py_range.
    replace (Z.to_nat (Z.min (entry_index s + Engine.max_bars) (len df)
                       - (entry_index s + 1))) with 0%nat by lia.
    cbn [range_from Engine.scan_forward bind ret].
    destruct (iloc_in_range df
                (Z.min (entry_index s + Engine.max_bars - 1) (len df - 1)))
      as (last & ->); [ unfold Engine.max_bars; lia | ].
    cbn. eexists. reflexivity.
Qed.

Lemma execute_trades_Forall2 (df : DataFrame) :
  forall signals trades,
    Engine.execute_trades df signals = inr trades ->
    Forall2 (fun s t => Engine.execute_trade df s = inr t) signals trades.
Proof.
  induction signals as [ | s rest IH ]; intros trades H.
  - cbn in H. injection H as <-. constructor.
  - cbn [Engine.execute_trades] in H. unfold bind in H.
    destruct (Engine.execute_trade df s) as [ e | t ] eqn:Et;
      [ discriminate | ].
    destruct (Engine.execute_trades df rest) as [ e | ts ];
      [ discriminate | ].
    injection H as <-. constructor; [ exact Et | ]. apply IH. reflexivity.
Qed.

Lemma execute_trades_returns (df : DataFrame) :
  forall signals,
    Forall (fun s => exists t, Engine.execute_trade df s = inr t) signals ->
    exists trades, Engine.execute_trades df signals = inr trades.
Proof.
  induction signals as [ | s rest IH ]; intros H.
  - exists []. reflexivity.
  - inversion H as [ | ? ? (t & Ht) Hrest ]; subst.
    destruct (IH Hrest) as (ts & Hts).
    exists (t :: ts). cbn [Engine.execute_trades].
    rewrite Ht. cbn. rewrite Hts. reflexivity.
Qed.

(** X14.  The simulator returns one trade per signal, in the order of the
    signals, each carrying its signal's timestamp, direction, entry price
    and level type. *)
Theorem trades_follow_signals (df : DataFrame) (signals : list Signal)
    (trades : list Trade) :
  Engine.execute_trades df signals = inr trades ->
  Forall2 (fun s t => entry_time t = timestamp s
                      /\ t_direction t = direction s
                      /\ t_entry_price t = entry_price s
                      /\ t_level_type t = level_type s) signals trades.
Proof.
  intros H. apply execute_trades_Forall2 in H.
  induction H as [ | s t ss ts Hst _ IH ]; constructor; [ | exact IH ].
  apply execute_trade_inv_full in Hst
    as (found & _ & _ & Htime & Hdir & Hprice & Hlevel & _).
  auto.
Qed.

Lemma trades_follow_signals_witness :
  exists trades,
    Engine.execute_trades Sample.wide_df
      [ Sample.long_entry 0; Sample.short_entry 0 ] = inr trades
    /\ Forall2 (fun s t => entry_time t = timestamp s
                           /\ t_direction t = direction s
                           /\ t_entry_price t = entry_price s
                           /\ t_level_type t = level_type s)
         [ Sample.long_entry 0; Sample.short_entry 0 ] trades.
Proof.
  eexists. split; [ vm_compute; reflexivity | ].
  apply (trades_follow_signals Sample.wide_df).
  vm_compute. reflexivity.
Defined.

(** X15.  For signals at non-negative positions the simulator raises only
    on an empty frame: there every non-empty signal list gives
    [IndexError], while on a non-empty frame it always returns (a signal
    placed beyond the last row included). *)
Theorem simulator_fails_only_on_empty_frame (df : DataFrame)
    (signals : list Signal) :
  Forall (fun s => (0 <= entry_index s)%Z) signals ->
  (df = [] -> signals <> [] ->
   Engine.execute_trades df signals = inl IndexError)
  /\ (df <> [] ->
      exists trades, Engine.execute_trades df signals = inr trades).
Proof.
  intros Hpos. split.
  - intros -> Hne. destruct signals as [ | s rest ]; [ congruence | ].
    cbn [Engine.execute_trades]. rewrite execute_trade_nil_frame.
    reflexivity.
  - intros Hdf. apply execute_trades_returns.
    apply Forall_impl with (2 := Hpos). intros s Hs.
    apply execute_trade_returns_nonneg; assumption.
Qed.

Lemma simulator_fails_only_on_empty_frame_witness :
  Engine.execute_trades [] [ Sample.long_entry 0 ] = inl IndexError
  /\ exists trades,
       Engine.execute_trades Sample.wide_df [ Sample.long_entry 7 ]
       = inr trades.
Proof.
  split.
  - apply (proj1 (simulator_fails_only_on_empty_frame []
                    [ Sample.long_entry 0 ]
                    ltac:(repeat constructor; discriminate)));
      [ reflexivity | discriminate ].
  - apply (proj2 (simulator_fails_only_on_empty_frame Sample.wide_df
                    [ Sample.long_entry 7 ]
                    ltac:(repeat constructor; discriminate))).
    discriminate.
Defined.

Lemma detected_signals_are_simulated_aux (self : Strategy.Strategy)
    (df : DataFrame) :
  1 <= Strategy.ema_length self ->
  exists signals trades,
    Strategy.detect_signals self df = inr signals
    /\ Engine.execute_trades df signals = inr trades
    /\ length trades = length signals.
Proof.
  intros Hspan.
  destruct (detect_signals_returns self df Hspan) as (signals & Hsig).
  destruct (execute_trades_returns df signals) as (trades & Htr).
  - apply Forall_forall. intros s Hs.
    destruct (emitted_signal_inv self df signals s Hsig Hs)
      as (_ & _ & _ & _ & Hrange & _).
    apply execute_trade_returns. lia.
  - exists signals, trades. split; [ exact Hsig | ].
    split; [ exact Htr | ].
    apply execute_trades_Forall2 in Htr. symmetry.
    exact (Forall2_length Htr).
Qed.

(** X16.  Detection and simulation compose: for every frame and every
    strategy with an EMA length of at least 1, the signals returned by the
    detector are simulated without error on the same frame, one trade per
    signal. *)
Theorem detected_signals_are_simulated (self : Strategy.Strategy)
    (df : DataFrame) :
  1 <= Strategy.ema_length self ->
  exists signals trades,
    Strategy.detect_signals self df = inr signals
    /\ Engine.execute_trades df signals = inr trades
    /\ length trades = length signals.
Proof. exact (detected_signals_are_simulated_aux self df). Qed.

Lemma detected_signals_are_simulated_witness :
  exists signals trades,
    Strategy.detect_signals Strategy.default Sample.long_df = inr signals
    /\ Engine.execute_trades Sample.long_df signals = inr trades
    /\ length trades = length signals.
Proof.
  apply (detected_signals_are_simulated Strategy.default Sample.long_df).
  vm_compute. discriminate.
Defined.

(** X17.  A trade that did not end on the time stop ended on a real bar:
    [bars_in_trade] is between 1 and 59 and points at a forward bar that
    satisfied the test named by the exit reason after the tests of higher
    priority had failed on it, the exit price is the level of that test,
    and on every forward bar before it no test had succeeded. *)
Theorem price_exits_are_genuine (df : DataFrame) (s : Signal) (t : Trade) :
  Engine.execute_trade df s = inr t ->
  exit_reason t <> TIME_STOP ->
  (1 <= bars_in_trade t <= Engine.max_bars - 1)%Z
  /\ (exists b,
        iloc df (entry_index s + bars_in_trade t) = inr b
        /\ match direction s, exit_reason t with
           | LONG, STOP_LOSS =>
               low b <= stop_loss s /\ exit_price t = stop_loss s
           | LONG, TP2 =>
               stop_loss s < low b /\ tp2 s <= high b
               /\ exit_price t = tp2 s
           | LONG, TP1 =>
               stop_loss s < low b /\ high b < tp2 s /\ tp1 s <= high b
               /\ exit_price t = tp1 s
           | SHORT, STOP_LOSS =>
               stop_loss s <= high b /\ exit_price t = stop_loss s
           | SHORT, TP2 =>
               high b < stop_loss s /\ low b <= tp2 s
               /\ exit_price t = tp2 s
           | SHORT, TP1 =>
               high b < stop_loss s /\ tp2 s < low b /\ low b <= tp1 s
               /\ exit_price t = tp1 s
           | _, TIME_STOP => False
           end)
  /\ forall i,
       (entry_index s < i < entry_index s + bars_in_trade t)%Z ->
       exists bi,
         iloc df i = inr bi
         /\ quiet (direction s) (stop_loss s) (tp1 s) (tp2 s) bi.
Proof.
  intros H Hreason.
  apply execute_trade_inv_full in H as (found & Hscan & Hexit & _).
  unfold py_range in Hscan.
  apply scan_forward_range_inv in Hscan. cbv zeta in Hscan.
  rewrite Z.sub_0_r in Hscan. destruct Hscan as (Hk & Hfound).
  destruct found as [ [ p r ] | ].
  - destruct Hexit as (Hp & Hr). cbn in Hp, Hr.
    destruct Hfound as (Hk1 & (b & Hb & He) & Hcalm).
    split; [ unfold Engine.max_bars in *; lia | ]. split.
    + exists b. split.
      * replace (entry_index s + bars_in_trade t)%Z
          with (entry_index s + 1 + bars_in_trade t - 1)%Z by lia.
        exact Hb.
      * apply check_exit_inv in He. rewrite Hr, Hp. exact He.
    + intros i Hi. apply Hcalm. lia.
  - destruct Hexit as (Hr & _). congruence.
Qed.

Lemma price_exits_are_genuine_witness :
  exists t b,
    Engine.execute_trade Sample.up_df (Sample.long_entry 0) = inr t
    /\ exit_reason t = TP2
    /\ iloc Sample.up_df (0 + bars_in_trade t) = inr b
    /\ 1.0385 < low b /\ 1.0430 <= high b /\ exit_price t = 1.0430.
Proof.
  eexists.
  destruct (price_exits_are_genuine Sample.up_df (Sample.long_entry 0) _
              ltac:(vm_compute; reflexivity) ltac:(discriminate))
    as (_ & (b & Hb & Hlevel) & _).
  exists b. split; [ vm_compute; reflexivity | ].
  split; [ reflexivity | ]. split; [ exact Hb | ]. exact Hlevel.
Defined.

(** X18.  A trade that ended on the time stop saw no test succeed on any
    bar it scanned; it scanned every forward bar up to position
    [entry_index + 59] or the end of the frame, and its exit price is the
    close of the last of them (of the row at
    [min (entry_index + 59) (len df - 1)]). *)
Theorem time_stop_means_calm (df : DataFrame) (s : Signal) (t : Trade) :
  Engine.execute_trade df s = inr t ->
  exit_reason t = TIME_STOP ->
  bars_in_trade t
  = Z.max 0 (Z.min (entry_index s + Engine.max_bars) (len df)
             - (entry_index s + 1))
  /\ (exists last,
        iloc df (Z.min (entry_index s + Engine.max_bars - 1) (len df - 1))
        = inr last
        /\ exit_price t = close last)
  /\ forall i,
       (entry_index s < i
        < Z.min (entry_index s + Engine.max_bars) (len df))%Z ->
       exists bi,
         iloc df i = inr bi
         /\ quiet (direction s) (stop_loss s) (tp1 s) (tp2 s) bi.
Proof.
  intros H Hreason.
  apply execute_trade_inv_full in H as (found & Hscan & Hexit & _).
  unfold py_range in Hscan.
  apply scan_forward_range_inv in Hscan. cbv zeta in Hscan.
  rewrite Z.sub_0_r in Hscan. destruct Hscan as (Hk & Hfound).
  destruct found as [ [ p r ] | ].
  - destruct Hexit as (_ & Hr). cbn in Hr.
    destruct Hfound as (_ & (b & _ & He) & _).
    apply check_exit_inv in He. rewrite <- Hr, Hreason in He.
    destruct (direction s); contradiction.
  - destruct Hexit as (_ & Hlast). destruct Hfound as (Hkn & Hcalm).
    split; [ lia | ]. split; [ exact Hlast | ].
    intros i Hi. apply Hcalm. lia.
Qed.

Lemma time_stop_means_calm_witness :
  exists t,
    Engine.execute_trade Sample.still_df (Sample.long_entry 0) = inr t
    /\ bars_in_trade t = 59%Z.
Proof.
  eexists. split; [ vm_compute; reflexivity | ].
  refine (proj1 (time_stop_means_calm Sample.still_df (Sample.long_entry 0)
                   _ _ _)).
  - vm_compute. reflexivity.
  - reflexivity.
Defined.





(** X20.  A signal on the last row of the frame has no forward bar: its
    trade is closed at once by the time stop, with [bars_in_trade = 0], at
    the close of the signal bar itself; when the entry price is that close,
    as it is for detector signals, the trade has zero pips and is a
    loser. *)
Theorem entry_on_last_bar (df : DataFrame) (s : Signal) :
  (0 <= entry_index s)%Z ->
  entry_index s = (len df - 1)%Z ->
  exists t b,
    Engine.execute_trade df s = inr t
    /\ iloc df (entry_index s) = inr b
    /\ exit_reason t = TIME_STOP
    /\ bars_in_trade t = 0%Z
    /\ exit_price t = close b
    /\ (entry_price s = close b -> pips t == 0 /\ win t = false).
Proof.
  intros Hpos Hlast.
  destruct (execute_trade_time_stop df s)
    as (t & b & Ht & Hb & Hr & Hp & Hn).
  - lia.
  - intros i bi Hi. lia.
  - exists t, b. split; [ exact Ht | ].
    replace (Z.min (entry_index s + Engine.max_bars - 1) (len df - 1))
      with (entry_index s) in Hb by (unfold Engine.max_bars; lia).
    split; [ exact Hb | ]. split; [ exact Hr | ].
    split; [ unfold Engine.max_bars in Hn; lia | ]. split; [ exact Hp | ].
    intros Hentry.
    apply execute_trade_inv_full in Ht
      as (_ & _ & _ & _ & _ & _ & _ & Hpips & Hwin).
    assert (pips t == 0) as Hzero.
    { rewrite Hpips, Hp, Hentry. destruct (direction s); field. }
    split; [ exact Hzero | ].
    rewrite Hwin. apply Qltb_false_iff. rewrite Hzero. apply Qle_refl.
Qed.

Lemma entry_on_last_bar_witness :
  exists s,
    Strategy.detect_signals Strategy.default Sample.long_df = inr [ s ]
    /\ exists t,
         Engine.execute_trade Sample.long_df s = inr t
         /\ exit_reason t = TIME_STOP
         /\ bars_in_trade t = 0%Z.
Proof.
  eexists. split; [ exact long_df_detected | ].
  match goal with
  | |- exists t, Engine.execute_trade _ ?s = _ /\ _ =>
      destruct (entry_on_last_bar Sample.long_df s
                  ltac:(vm_compute; discriminate) ltac:(reflexivity))
        as (t & b & Ht & _ & Hr & Hn & _)
  end.
  exists t. split; [ exact Ht | ]. split; assumption.
Defined.

(** ** More on the metrics *)

Lemma round_half_even_bounds (x : Q) :
  (Qfloor x <= round_half_even x <= Qfloor x + 1)%Z.
Proof.
  unfold round_half_even. cbv zeta.
  destruct (x - inject_Z (Qfloor x) <? 1 # 2); [ lia | ].
  destruct ((1 # 2) <? x - inject_Z (Qfloor x)); [ lia | ].
  destruct (Z.even (Qfloor x)); lia.
Qed.

Lemma round_half_even_int (x : Q) (k : Z) :
  x == inject_Z k -> round_half_even x = k.
Proof.
  intros H. unfold round_half_even. cbv zeta.
  assert (Qfloor x = k) as Hf by (rewrite H; apply Qfloor_Z).
  rewrite Hf.
  assert ((x - inject_Z k <? 1 # 2) = true) as ->
    by (apply Qltb_iff; rewrite H; lra).
  reflexivity.
Qed.

Lemma round_half_even_ge (x : Q) (k : Z) :
  inject_Z k <= x -> (k <= round_half_even x)%Z.
Proof.
  intros H. apply Qfloor_ge_iff in H.
  pose proof (round_half_even_bounds x). lia.
Qed.

Lemma round_half_even_le (x : Q) (k : Z) :
  x <= inject_Z k -> (round_half_even x <= k)%Z.
Proof.
  intros H.
  assert (Qfloor x <= k)%Z as Hf
    by (rewrite <- (Qfloor_Z k); apply Qfloor_resp_le; exact H).
  destruct (Z.eq_dec (Qfloor x) k) as [ Heq | Hne ].
  - rewrite (round_half_even_int x k); [ lia | ].
    apply Qle_antisym; [ exact H | ].
    rewrite <- Heq. apply Qfloor_le.
  - pose proof (round_half_even_bounds x). lia.
Qed.

Lemma scale_pos (n : nat) : 0 < inject_Z (10 ^ Z.of_nat n).
Proof.
  replace 0 with (inject_Z 0) by reflexivity. rewrite <- Zlt_Qlt.
  apply Z.pow_pos_nonneg; lia.
Qed.

Lemma py_round_ge_int (x : Q) (k : Z) (n : nat) :
  inject_Z k <= x -> inject_Z k <= py_round x n.
Proof.
  intros H. unfold py_round. cbv zeta.
  pose proof (scale_pos n) as Hs.
  apply Qle_shift_div_l; [ exact Hs | ].
  rewrite <- inject_Z_mult, <- Zle_Qle.
  apply round_half_even_ge. rewrite inject_Z_mult.
  apply Qmult_le_compat_r; [ exact H | apply Qlt_le_weak; exact Hs ].
Qed.

Lemma py_round_le_int (x : Q) (k : Z) (n : nat) :
  x <= inject_Z k -> py_round x n <= inject_Z k.
Proof.
  intros H. unfold py_round. cbv zeta.
  pose proof (scale_pos n) as Hs.
  apply Qle_shift_div_r; [ exact Hs | ].
  rewrite <- inject_Z_mult, <- Zle_Qle.
  apply round_half_even_le. rewrite inject_Z_mult.
  apply Qmult_le_compat_r; [ exact H | apply Qlt_le_weak; exact Hs ].
Qed.

Lemma fold_Qplus_nonneg (xs : list Q) :
  Forall (fun x => 0 <= x) xs -> forall a, a <= fold_left Qplus xs a.
Proof.
  induction 1 as [ | x xs Hx _ IH ]; intros a; cbn.
  - apply Qle_refl.
  - apply Qle_trans with (a + x); [ lra | apply IH ].
Qed.

Lemma fold_Qplus_nonpos (xs : list Q) :
  Forall (fun x => x <= 0) xs -> forall a, fold_left Qplus xs a <= a.
Proof.
  induction 1 as [ | x xs Hx _ IH ]; intros a; cbn.
  - apply Qle_refl.
  - apply Qle_trans with (a + x); [ apply IH | lra ].
Qed.

Lemma Qmean_nonneg (xs : list Q) :
  (len xs > 0)%Z -> Forall (fun x => 0 <= x) xs -> 0 <= Qmean xs.
Proof.
  intros Hlen Hxs. unfold Qmean.
  assert (0 < inject_Z (len xs))
    by (replace 0 with (inject_Z 0) by reflexivity; rewrite <- Zlt_Qlt; lia).
  apply Qle_shift_div_l; [ assumption | ].
  rewrite Qmult_0_l. exact (fold_Qplus_nonneg xs Hxs 0).
Qed.

Lemma Qmean_nonpos (xs : list Q) :
  (len xs > 0)%Z -> Forall (fun x => x <= 0) xs -> Qmean xs <= 0.
Proof.
  intros Hlen Hxs. unfold Qmean.
  assert (0 < inject_Z (len xs))
    by (replace 0 with (inject_Z 0) by reflexivity; rewrite <- Zlt_Qlt; lia).
  apply Qle_shift_div_r; [ assumption | ].
  rewrite Qmult_0_l. exact (fold_Qplus_nonpos xs Hxs 0).
Qed.

Section Book.

Import Engine.

Variable trades : list Trade.
Hypothesis flags : Forall (fun t => win t = (pips t >? 0)) trades.

Lemma winners_pips_nonneg : Forall (fun x => 0 <= x) (pips_of (winners_of trades)).
Proof.
  unfold pips_of, winners_of. apply Forall_forall. intros x Hx.
  apply in_map_iff in Hx as (t & <- & Ht).
  apply filter_In in Ht as (Hin & Hw).
  rewrite Forall_forall in flags. rewrite (flags t Hin) in Hw.
  destruct (pips t >? 0) eqn:E; [ | discriminate ].
  apply Qltb_iff in E. apply Qlt_le_weak. exact E.
Qed.

Lemma losers_pips_nonpos : Forall (fun x => x <= 0) (pips_of (losers_of trades)).
Proof.
  unfold pips_of, losers_of. apply Forall_forall. intros x Hx.
  apply in_map_iff in Hx as (t & <- & Ht).
  apply filter_In in Ht as (Hin & Hw).
  rewrite Forall_forall in flags. rewrite (flags t Hin) in Hw.
  destruct (pips t >? 0) eqn:E; [ discriminate | ].
  apply Qltb_false_iff in E. exact E.
Qed.

Lemma gross_profit_nonneg : 0 <= gross_profit trades.
Proof.
  unfold gross_profit. cbv zeta.
  destruct (len (winners_of trades) >? 0)%Z; [ | apply Qle_refl ].
  exact (fold_Qplus_nonneg _ winners_pips_nonneg 0).
Qed.

Lemma raw_profit_factor_nonneg : 0 <= raw_profit_factor trades.
Proof.
  unfold raw_profit_factor.
  destruct (gross_loss trades >? 0) eqn:E; [ | apply Qle_refl ].
  apply Qltb_iff in E.
  apply Qle_shift_div_l; [ exact E | ].
  rewrite Qmult_0_l. apply gross_profit_nonneg.
Qed.

End Book.

Lemma raw_win_rate_range (w total : Z) :
  (0 <= w <= total)%Z -> (0 < total)%Z ->
  0 <= inject_Z w / inject_Z total * 100 <= 100.
Proof.
  intros Hw Ht.
  assert (0 < inject_Z total)
    by (replace 0 with (inject_Z 0) by reflexivity; rewrite <- Zlt_Qlt; lia).
  assert (0 <= inject_Z w / inject_Z total).
  { apply Qle_shift_div_l; [ assumption | ].
    rewrite Qmult_0_l. replace 0 with (inject_Z 0) by reflexivity.
    rewrite <- Zle_Qle. lia. }
  assert (inject_Z w / inject_Z total <= 1).
  { apply Qle_shift_div_r; [ assumption | ].
    rewrite Qmult_1_l. rewrite <- Zle_Qle. lia. }
  split; lra.
Qed.

Lemma simulated_flags (df : DataFrame) (signals : list Signal)
    (trades : list Trade) :
  Engine.execute_trades df signals = inr trades ->
  Forall (fun t => win t = (pips t >? 0)) trades.
Proof.
  apply execute_trades_Forall. intros s t H.
  apply execute_trade_inv_full in H
    as (_ & _ & _ & _ & _ & _ & _ & _ & Hwin).
  exact Hwin.
Qed.

(** X21.  For every trade set returned by the simulator the summary counts
    all trades, its win rate lies between 0 and 100, its profit factor and
    average win are non-negative and its average loss is non-positive. *)
Theorem metrics_ranges (df : DataFrame) (signals : list Signal)
    (trades : list Trade) :
  Engine.execute_trades df signals = inr trades ->
  total_trades (Engine.calculate_metrics trades) = len trades
  /\ 0 <= win_rate (Engine.calculate_metrics trades) <= 100
  /\ 0 <= profit_factor (Engine.calculate_metrics trades)
  /\ 0 <= avg_win_pips (Engine.calculate_metrics trades)
  /\ avg_loss_pips (Engine.calculate_metrics trades) <= 0.
Proof.
  intros H. apply simulated_flags in H.
  unfold Engine.calculate_metrics.
  destruct (Z.eqb_spec (len trades) 0) as [ Hz | Hnz ].
  - cbn. rewrite Hz. repeat split; discriminate.
  - assert (0 < len trades)%Z as Hpos by (unfold len in *; lia).
    cbn [total_trades win_rate profit_factor avg_win_pips avg_loss_pips].
    pose proof (winners_losers_total trades) as Hpart.
    assert (0 <= len (Engine.winners_of trades))%Z by (unfold len; lia).
    assert (0 <= len (Engine.losers_of trades))%Z by (unfold len; lia).
    split; [ reflexivity | ].
    destruct (Z.gtb_spec (len trades) 0) as [ _ | ]; [ | lia ].
    destruct (raw_win_rate_range (len (Engine.winners_of trades))
                (len trades) ltac:(lia) Hpos) as (Hlo & Hhi).
    split.
    { split.
      - apply (py_round_ge_int _ 0 2). exact Hlo.
      - apply (py_round_le_int _ 100 2). exact Hhi. }
    split.
    { apply (py_round_ge_int _ 0 2).
      apply raw_profit_factor_nonneg. exact H. }
    split.
    + destruct (Z.gtb_spec (len (Engine.winners_of trades)) 0);
        [ | apply Qle_refl ].
      apply (py_round_ge_int _ 0 2). apply Qmean_nonneg.
      * unfold Engine.pips_of, len in *. rewrite length_map. lia.
      * apply winners_pips_nonneg. exact H.
    + destruct (Z.gtb_spec (len (Engine.losers_of trades)) 0);
        [ | apply Qle_refl ].
      apply (py_round_le_int _ 0 2). apply Qmean_nonpos.
      * unfold Engine.pips_of, len in *. rewrite length_map. lia.
      * apply losers_pips_nonpos. exact H.
Qed.

Lemma metrics_ranges_witness :
  exists trades,
    Engine.execute_trades Sample.wide_df
      [ Sample.long_entry 0; Sample.short_entry 0 ] = inr trades
    /\ 0 <= win_rate (Engine.calculate_metrics trades) <= 100.
Proof.
  eexists. split; [ vm_compute; reflexivity | ].
  refine (proj1 (proj2 (metrics_ranges Sample.wide_df
                          [ Sample.long_entry 0; Sample.short_entry 0 ]
                          _ _))).
  vm_compute. reflexivity.
Defined.

(** ** The whole run *)

(** X22.  On every price frame the backtest run completes without an
    exception.  It returns [None] exactly when the detector, run with the
    parameters of the script, finds no signal; otherwise it returns the
    metrics of the simulated trades, one trade per signal. *)
Theorem run_backtest_outcome (df : DataFrame) :
  exists strategy signals,
    Strategy.init 1.5 8 5 20 15 20 30 = inr strategy
    /\ Strategy.detect_signals strategy df = inr signals
    /\ ((signals = [] /\ Runner.run_backtest df = inr None)
        \/ (signals <> []
            /\ exists trades,
                 Engine.execute_trades df signals = inr trades
                 /\ Runner.run_backtest df
                    = inr (Some (Engine.calculate_metrics trades))
                 /\ total_trades (Engine.calculate_metrics trades)
                    = len signals)).
Proof.
  unfold Runner.run_backtest.
  destruct (Strategy.init 1.5 8 5 20 15 20 30) as [ e | strategy ] eqn:Hinit;
    [ discriminate | ].
  assert (1 <= Strategy.ema_length strategy) as Hspan
    by (injection Hinit as <-; cbn; discriminate).
  destruct (detected_signals_are_simulated_aux strategy df Hspan)
    as (signals & trades & Hsig & Htr & Hlen).
  exists strategy, signals. split; [ reflexivity | ].
  split; [ exact Hsig | ].
  cbn [bind]. rewrite Hsig. cbn [bind].
  destruct signals as [ | s rest ].
  - left. split; reflexivity.
  - right. split; [ discriminate | ].
    exists trades. split; [ exact Htr | ].
    assert ((len (s :: rest) =? 0)%Z = false) as ->
      by (apply len_nonempty; discriminate).
    rewrite Htr. cbn [bind]. split; [ reflexivity | ].
    unfold Engine.calculate_metrics.
    assert ((len trades =? 0)%Z = false) as ->
      by (apply len_nonempty; destruct trades; discriminate).
    cbn. unfold len. rewrite Hlen. reflexivity.
Qed.
